(** * blink: the ThingM blink(1) command line encoder

    A shallow embedding of [blink.c]: the two token parsers
    ([parse_color], [parse_duration]), the command table and [main],
    which fills the 9-byte hidraw report and hands it to [write].

    The C library routines the program calls ([strtoul], [strtof],
    [atoi], [strcmp], [strlen]) are modelled as glibc behaves on an LP64
    Linux host in the C locale; [float] is IEEE 754 binary32, taken from
    the standard library's [SpecFloat] with [prec = 24], [emax = 128]. *)

From Stdlib Require Import ZArith List String Ascii Bool Lia DecimalString.
From Stdlib Require Import SpecFloat.
From stdpp Require Import list.
Import ListNotations.

Local Open Scope string_scope.
Local Open Scope Z_scope.

(** ** Characters and C strings *)

Module CType.

Definition code (c : ascii) : Z := Z.of_N (N_of_ascii c).

(** [isspace] in the C locale: space, and \t \n \v \f \r. *)
Definition isspace (c : ascii) : bool :=
  (code c =? 32) || ((9 <=? code c) && (code c <=? 13)).

Definition isdigit (c : ascii) : bool :=
  (48 <=? code c) && (code c <=? 57).

Definition tolower (c : ascii) : ascii :=
  if (65 <=? code c) && (code c <=? 90)
  then ascii_of_N (Z.to_N (code c + 32)) else c.

(** The value of a character read as a digit (0-9, then letters of
    either case from 10 up), as the strto* family does. *)
Definition digit_val (c : ascii) : option Z :=
  let n := code c in
  if (48 <=? n) && (n <=? 57) then Some (n - 48)
  else if (97 <=? n) && (n <=? 122) then Some (n - 87)
  else if (65 <=? n) && (n <=? 90) then Some (n - 55)
  else None.

Definition digit_in (base : Z) (c : ascii) : option Z :=
  match digit_val c with
  | Some d => if d <? base then Some d else None
  | None => None
  end.

Definition isxdigit (c : ascii) : bool :=
  match digit_in 16 c with Some _ => true | None => false end.

End CType.

Import CType.

Module CString.

(** [*s == '\0'] *)
Definition at_nul (s : string) : bool :=
  match s with EmptyString => true | String _ _ => false end.

(** [strcmp(a, b) == 0] *)
Definition streq (a b : string) : bool := String.eqb a b.

(** [strlen] *)
Definition strlen (s : string) : Z := Z.of_nat (String.length s).

Fixpoint skip_space (s : string) : string :=
  match s with
  | String c s' => if isspace c then skip_space s' else s
  | EmptyString => s
  end.

(** An optional sign: [true] for a minus. *)
Definition take_sign (s : string) : bool * string :=
  match s with
  | String "-" s' => (true, s')
  | String "+" s' => (false, s')
  | _ => (false, s)
  end.

(** The longest run of digits of [base] at the head of [s]: its value
    continuing from [acc], and what follows it. *)
Fixpoint scan_digits (base : Z) (s : string) (acc : Z) : Z * string :=
  match s with
  | String c s' =>
      match digit_in base c with
      | Some d => scan_digits base s' (acc * base + d)
      | None => (acc, s)
      end
  | EmptyString => (acc, s)
  end.

Definition starts_with_digit (base : Z) (s : string) : bool :=
  match s with
  | String c _ => match digit_in base c with Some _ => true | None => false end
  | EmptyString => false
  end.

(** A "0x" or "0X" counts as a prefix only when a hex digit follows;
    otherwise the subject is the "0" alone. *)
Definition skip_hex_prefix (s : string) : string :=
  match s with
  | String "0" (String x s') =>
      if (Ascii.eqb x "x" || Ascii.eqb x "X") && starts_with_digit 16 s'
      then s' else s
  | _ => s
  end.

End CString.

Import CString.

(** ** strtoul, strtol, atoi *)

Definition ULONG_MAX : Z := 2 ^ 64 - 1.
Definition LONG_MAX : Z := 2 ^ 63 - 1.
Definition LONG_MIN : Z := - 2 ^ 63.

(** [strtoul(nptr, &end, base)] for [base] 10 or 16: the value and [end].
    With no digits nothing is converted: the value is 0 and [end] is
    [nptr]. A value past [ULONG_MAX] is [ULONG_MAX]; a minus sign negates
    in [unsigned long]. *)
Definition strtoul (nptr : string) (base : Z) : Z * string :=
  let (neg, s1) := take_sign (skip_space nptr) in
  let s2 := if base =? 16 then skip_hex_prefix s1 else s1 in
  if starts_with_digit base s2 then
    let (v, rest) := scan_digits base s2 0 in
    (if v >? ULONG_MAX then ULONG_MAX
     else if neg then (- v) mod 2 ^ 64 else v, rest)
  else (0, nptr).

(** [strtol], saturating at [LONG_MIN] and [LONG_MAX]. *)
Definition strtol (nptr : string) (base : Z) : Z * string :=
  let (neg, s1) := take_sign (skip_space nptr) in
  let s2 := if base =? 16 then skip_hex_prefix s1 else s1 in
  if starts_with_digit base s2 then
    let (v, rest) := scan_digits base s2 0 in
    (if neg then (if v >? 2 ^ 63 then LONG_MIN else - v)
     else (if v >? LONG_MAX then LONG_MAX else v), rest)
  else (0, nptr).

(** Conversion to [int]: the low 32 bits, read as two's complement. *)
Definition to_int (x : Z) : Z := (x + 2 ^ 31) mod 2 ^ 32 - 2 ^ 31.

(** [atoi(s)] is [(int) strtol(s, NULL, 10)]. *)
Definition atoi (s : string) : Z := to_int (fst (strtol s 10)).

(** ** Math utils: the MIN, MAX and CLAMP macros at type [int] *)

Definition MIN (a b : Z) : Z := if a <? b then a else b.
Definition MAX (a b : Z) : Z := if a >? b then a else b.
Definition CLAMP (val min max : Z) : Z := MAX min (MIN max val).

(** ** Color manipulation: the R, G and B macros *)

Definition R (rgb : Z) : Z := Z.shiftr (Z.land rgb 0xFF0000) 16.
Definition G (rgb : Z) : Z := Z.shiftr (Z.land rgb 0x00FF00) 8.
Definition B (rgb : Z) : Z := Z.shiftr (Z.land rgb 0x0000FF) 0.

Definition MSG_SIZE : Z := 9.
Definition DURATION_MAX : Z := 0xffff.

(** ** The color registry and parse_color *)

Definition colors : list (string * Z) :=
  [ ("blue",   0x0000FF);
    ("cyan",   0x00FFFF);
    ("green",  0x00FF00);
    ("purple", 0xFF00FF);
    ("red",    0xFF0000);
    ("white",  0xFFFFFF);
    ("yellow", 0xFFFF00) ].

(** The loop over [colors]: the value of the first entry named [color]. *)
Fixpoint find_color (tbl : list (string * Z)) (color : string) : option Z :=
  match tbl with
  | [] => None
  | (name, value) :: tbl' =>
      if streq name color then Some value else find_color tbl' color
  end.

Definition parse_color (color : string) : Z :=
  match find_color colors color with
  | Some value => value
  | None =>
      let (value, end_) := strtoul color 16 in
      if value >? 0xFFFFFF then -1
      else if negb (at_nul color) && at_nul end_ then value
      else -1
  end.

(** ** IEEE 754 binary32, the C type float *)

Module Float32.

Definition prec : Z := 24.
Definition emax : Z := 128.

Definition float : Type := spec_float.

(** An integer converted to [float], rounded to nearest even. *)
Definition of_Z (n : Z) : float := binary_normalize prec emax n 0 false.

Definition mul : float -> float -> float := SFmul prec emax.
Definition div : float -> float -> float := SFdiv prec emax.
Definition ltb : float -> float -> bool := SFltb.
Definition opp : float -> float := SFopp.

(** [m * 2 ^ e], rounded to nearest even. *)
Definition of_binary (neg : bool) (m e : Z) : float :=
  match m with
  | Zpos p => binary_round prec emax neg p e
  | _ => S754_zero neg
  end.

(** [m * 10 ^ k], rounded to nearest even: the product is an integer
    when [0 <= k], and otherwise the quotient [m / 10 ^ (- k)] is
    rounded from its integer part and the position of the remainder. *)
Definition of_decimal (neg : bool) (m k : Z) : float :=
  match m with
  | Zpos p =>
      if 0 <=? k then binary_round prec emax neg (Z.to_pos (m * 10 ^ k)) 0
      else
        let '(q, e, loc) :=
          SFdiv_core_binary prec emax m 0 (10 ^ (- k)) 0 in
        binary_round_aux prec emax neg q e loc
  | _ => S754_zero neg
  end.

(** The integral part (truncation toward zero) of a finite value. *)
Definition trunc (x : float) : option Z :=
  match x with
  | S754_zero _ => Some 0
  | S754_finite s m e =>
      let a := if 0 <=? e then Zpos m * 2 ^ e else Zpos m / 2 ^ (- e) in
      Some (if s then - a else a)
  | S754_infinity _ | S754_nan => None
  end.

Definition INT_MIN : Z := - 2 ^ 31.
Definition INT_MAX : Z := 2 ^ 31 - 1.

(** The conversion [(int) x]. The C standard leaves it undefined when
    the integral part is not representable in [int] (also for the
    infinities and NaN): [None]. *)
Definition to_int (x : float) : option Z :=
  match trunc x with
  | Some n => if (INT_MIN <=? n) && (n <=? INT_MAX) then Some n else None
  | None => None
  end.

(** The MIN, MAX and CLAMP macros at type [float]: an [int] operand is
    converted to [float] before the comparison, and the result of the
    conditional is a [float]. *)
Definition MIN (a b : float) : float := if ltb a b then a else b.
Definition MAX (a b : float) : float := if ltb b a then a else b.
Definition CLAMP (val min max : float) : float := MAX min (MIN max val).

End Float32.

(** ** strtof *)

Module Strtof.

Import Float32.

Definition len (s : string) : Z := Z.of_nat (String.length s).

(** [s] without the prefix [p], compared without regard to case
    ([p] is given in lower case). *)
Fixpoint strip_prefix_ci (p s : string) : option string :=
  match p, s with
  | EmptyString, _ => Some s
  | String a p', String c s' =>
      if Ascii.eqb a (tolower c) then strip_prefix_ci p' s' else None
  | String _ _, EmptyString => None
  end.

Definition is_nchar (c : ascii) : bool :=
  match digit_val c with
  | Some _ => true
  | None => Ascii.eqb c "_"
  end.

(** After "nan": an optional "(n-char-sequence)". *)
Fixpoint skip_nchars (s : string) : option string :=
  match s with
  | String c s' =>
      if Ascii.eqb c ")" then Some s'
      else if is_nchar c then skip_nchars s' else None
  | EmptyString => None
  end.

Definition parse_special (s : string) : option (float * string) :=
  match strip_prefix_ci "inf" s with
  | Some s1 =>
      match strip_prefix_ci "inity" s1 with
      | Some s2 => Some (S754_infinity false, s2)
      | None => Some (S754_infinity false, s1)
      end
  | None =>
      match strip_prefix_ci "nan" s with
      | Some s1 =>
          match s1 with
          | String "(" s2 =>
              match skip_nchars s2 with
              | Some s3 => Some (S754_nan, s3)
              | None => Some (S754_nan, s1)
              end
          | _ => Some (S754_nan, s1)
          end
      | None => None
      end
  end.

(** An exponent part: the marker letter ("e" or "p"), an optional sign
    and at least one decimal digit; anything less is not consumed. *)
Definition parse_exponent (marker : ascii) (s : string) : Z * string :=
  match s with
  | String c s' =>
      if Ascii.eqb (tolower c) marker then
        let (neg, s'') := take_sign s' in
        if starts_with_digit 10 s'' then
          let (e, rest) := scan_digits 10 s'' 0 in
          (if neg then - e else e, rest)
        else (0, s)
      else (0, s)
  | EmptyString => (0, s)
  end.

(** Digits of [base] with an optional radix point and at least one
    digit: the digits read as one integer, the number of them after
    the point, and the rest. *)
Definition parse_mantissa (base : Z) (s : string)
  : option (Z * Z * string) :=
  let (ip, s1) := scan_digits base s 0 in
  let nint := len s - len s1 in
  let '(m, nfrac, s2) :=
    match s1 with
    | String "." s1' =>
        let (m, s2) := scan_digits base s1' ip in
        (m, len s1' - len s2, s2)
    | _ => (ip, 0, s1)
    end in
  if nint + nfrac =? 0 then None else Some (m, nfrac, s2).

Definition parse_hex (neg : bool) (s : string) : option (float * string) :=
  match s with
  | String "0" (String x s') =>
      if Ascii.eqb (tolower x) "x" then
        match parse_mantissa 16 s' with
        | Some (m, nfrac, s2) =>
            let (e, rest) := parse_exponent "p" s2 in
            Some (of_binary neg m (e - 4 * nfrac), rest)
        | None => None
        end
      else None
  | _ => None
  end.

Definition parse_dec (neg : bool) (s : string) : option (float * string) :=
  match parse_mantissa 10 s with
  | Some (m, nfrac, s2) =>
      let (e, rest) := parse_exponent "e" s2 in
      Some (of_decimal neg m (e - nfrac), rest)
  | None => None
  end.

(** [strtof(nptr, &end)]: the value and [end]. White space and a sign
    are skipped, then the longest of: "inf", "infinity", "nan",
    "nan(...)", a hexadecimal or a decimal floating constant, rounded
    to nearest. When none is there, nothing is converted: the value is
    0 and [end] is [nptr]. *)
Definition strtof (nptr : string) : float * string :=
  let (neg, s) := take_sign (skip_space nptr) in
  match parse_special s with
  | Some (v, rest) => (if neg then opp v else v, rest)
  | None =>
      match parse_hex neg s with
      | Some r => r
      | None =>
          match parse_dec neg s with
          | Some r => r
          | None => (S754_zero false, nptr)
          end
      end
  end.

End Strtof.

Import Strtof.

(** ** parse_duration *)

(** The duration in hundredths of a second, as used by the blink(1).
    [None] is a run whose behaviour C leaves undefined (a conversion to
    [int] of a value that [int] cannot hold). *)
Definition parse_duration (duration : string) : option Z :=
  let (value, end_) := strtof duration in
  (* if no unit, return the number as is *)
  if negb (at_nul duration) && at_nul end_ then
    match Float32.to_int value with
    | Some n => Some (CLAMP n (-1) DURATION_MAX)
    | None => None
    end
  (* 's' suffix means second *)
  else if streq end_ "s" then
    Float32.to_int
      (Float32.CLAMP (Float32.mul value (Float32.of_Z 100))
         (Float32.of_Z (-1)) (Float32.of_Z DURATION_MAX))
  (* 'ms' suffix means millisecond *)
  else if streq end_ "ms" then
    Float32.to_int
      (Float32.CLAMP (Float32.div value (Float32.of_Z 10))
         (Float32.of_Z (-1)) (Float32.of_Z DURATION_MAX))
  else Some (-1).

(** ** Usage texts and the command table *)

Definition nl : string := String (ascii_of_nat 10) EmptyString.
Definition tab : string := String (ascii_of_nat 9) EmptyString.

Definition USAGE : string :=
  "Usage: blink [OPTIONS] COMMAND [FIELD...]".

Definition USAGE_OPTIONS : string :=
  "Options:" ++ nl ++
  tab ++ "-h" ++ tab ++ "print this help message" ++ nl ++
  tab ++ "-c" ++ tab ++ "list defined colors".

Definition USAGE_FADE : string :=
  "Usage: blink c COLOR FADE" ++ nl ++
  "Example: blink c red 50".

Definition USAGE_SET : string :=
  "Usage: blink n COLOR" ++ nl ++
  "Example: blink n 454545".

Definition USAGE_PLAY : string :=
  "Usage: blink p 0|1 POSITION" ++ nl ++
  "Example: blink p 0 0 # Pause" ++ nl ++
  "         blink p 1 4 # Play from 5th position".

Definition USAGE_PATT : string :=
  "Usage: blink P COLOR FADE POSITION" ++ nl ++
  "Example: blink P green .5s 2 # 3rd pattern green with 500ms fade time".

Definition USAGE_SDOWN : string :=
  "Usage: blink D 0|1 DURATION" ++ nl ++
  "Example: blink D 0 0 # stop server tickle mode" ++ nl ++
  "         blink D 1 2000ms # start server tickle mode with 2s time".

Record command := COMMAND {
  cmd_char : ascii;
  cmd_argc : Z;
  cmd_usage : string;
  cmd_desc : string
}.

Definition commands : list command :=
  [ COMMAND "c" 2 USAGE_FADE  "Fade to RGB color";
    COMMAND "D" 2 USAGE_SDOWN "Serverdown tickle/off";
    COMMAND "n" 1 USAGE_SET   "Set RGB color now";
    COMMAND "p" 2 USAGE_PLAY  "Play/Pause";
    COMMAND "P" 3 USAGE_PATT  "Set pattern entry" ].

(** ** The run of main: buffer, observable events, early returns *)

Variant callee := Parse_color | Parse_duration | Atoi.

(** What a run does, in order: text printed to standard output and to
    standard error, calls of the token parsers with their argument,
    stores into [buf], and the final [write] of the buffer with the
    count it returned. *)
Variant event :=
  | Printf (text : string)
  | Error (text : string)
  | Call (f : callee) (arg : string)
  | Store (i : nat) (v : Z)
  | Write (bytes : list Z) (ret : Z).

Record state := State {
  buf : list Z;
  trace : list event
}.

(** A statement either falls through to the next one, or returns from
    [main] with an exit status, or has no defined behaviour. *)
Variant result (A : Type) :=
  | Next (a : A)
  | Return (status : Z)
  | Undefined.

Arguments Next {A} a.
Arguments Return {A} status.
Arguments Undefined {A}.

Definition M (A : Type) : Type := state -> result A * state.

Definition ret {A} (a : A) : M A := fun st => (Next a, st).

Definition bind {A B} (c : M A) (k : A -> M B) : M B :=
  fun st =>
    match c st with
    | (Next a, st') => k a st'
    | (Return n, st') => (Return n, st')
    | (Undefined, st') => (Undefined, st')
    end.

Declare Scope blink_scope.
Delimit Scope blink_scope with blink.
Notation "x <- c ;; k" := (bind c (fun x => k))
  (at level 100, c at next level, right associativity) : blink_scope.
Notation "c ;; k" := (bind c (fun _ => k))
  (at level 100, right associativity) : blink_scope.
Local Open Scope blink_scope.

Definition return_ {A} (status : Z) : M A := fun st => (Return status, st).
Definition undefined {A} : M A := fun st => (Undefined, st).

Definition emit (e : event) : M unit :=
  fun st => (Next tt, State (buf st) (trace st ++ [e])).

Definition printf (text : string) : M unit := emit (Printf text).

(** The [error] macro of a build without DEBUG: the message and a
    newline, to standard error. *)
Definition error (msg : string) : M unit := emit (Error (msg ++ nl)).

(** A value stored into a [char]: its low 8 bits. *)
Definition to_byte (v : Z) : Z := v mod 256.

(** [buf[i] = v] *)
Definition store (i : nat) (v : Z) : M unit :=
  fun st =>
    (Next tt,
     State (<[ i := to_byte v ]> (buf st))
           (trace st ++ [Store i (to_byte v)])).

Definition when (b : bool) (c : M unit) : M unit :=
  if b then c else ret tt.

(** [argv[optind + i]], over the fields left after the options. Past
    the last one is a null pointer (or worse): no defined behaviour. *)
Definition argv (fields : list string) (i : nat) : M string :=
  match nth_error fields i with
  | Some s => ret s
  | None => undefined
  end.

Definition call_parse_color (s : string) : M Z :=
  emit (Call Parse_color s) ;; ret (parse_color s).

Definition call_parse_duration (s : string) : M Z :=
  emit (Call Parse_duration s) ;;
  match parse_duration s with
  | Some d => ret d
  | None => undefined
  end.

Definition call_atoi (s : string) : M Z :=
  emit (Call Atoi s) ;; ret (atoi s).

Definition show_int (n : Z) : string := NilZero.string_of_int (Z.to_int n).

(** ** main *)

(** [-h]: the command table, one line per command. *)
Fixpoint print_commands (tbl : list command) : M unit :=
  match tbl with
  | [] => ret tt
  | c :: tbl' =>
      printf (tab ++ String (cmd_char c) tab ++ cmd_desc c ++ nl) ;;
      print_commands tbl'
  end.

(** [-c]: the names of the defined colors, one per line. *)
Fixpoint print_colors (tbl : list (string * Z)) : M unit :=
  match tbl with
  | [] => ret tt
  | (name, _) :: tbl' => printf (name ++ nl) ;; print_colors tbl'
  end.

(** The quick check of commands syntax: for every entry of the table
    with the letter [cmd], the count of fields must be its [argc]. *)
Fixpoint check_syntax (tbl : list command) (cmd : ascii) (argr : Z) : M unit :=
  match tbl with
  | [] => ret tt
  | c :: tbl' =>
      when (Ascii.eqb cmd (cmd_char c))
        (when (negb (argr =? cmd_argc c))
           (error (cmd_desc c ++ nl ++ cmd_usage c) ;; return_ 1)) ;;
      check_syntax tbl' cmd argr
  end.

Section Switch.

(** The fields after the command letter: [argv[optind ...]] once
    [optind] has passed it. *)
Variable fields : list string.

(** case 'n': set RGB color now *)
Definition case_n : M unit :=
  a <- argv fields 0 ;;
  rgb <- call_parse_color a ;;
  store 2 (R rgb) ;;
  store 3 (G rgb) ;;
  store 4 (B rgb).

(** case 'c': fade to RGB color, falling through to 'n' *)
Definition case_c : M unit :=
  a <- argv fields 1 ;;
  duration <- call_parse_duration a ;;
  when (duration <? 0) (error "invalid duration" ;; return_ 1) ;;
  store 5 (Z.shiftr duration 8) ;;
  store 6 (Z.land duration 0xff) ;;
  case_n.

(** case 'P': set pattern entry, falling through to 'c' *)
Definition case_P : M unit :=
  a <- argv fields 2 ;;
  position <- call_atoi a ;;
  when ((position <? 0) || (position >? 11))
    (error ("invalid position " ++ show_int position) ;; return_ 1) ;;
  store 7 position ;;
  case_c.

(** case 'p': play/pause *)
Definition case_p : M unit :=
  a0 <- argv fields 0 ;;
  play <- call_atoi a0 ;;
  a1 <- argv fields 1 ;;
  position <- call_atoi a1 ;;
  store 2 (if play =? 0 then 0 else 1) ;;
  store 3 (CLAMP position 0 11).

(** case 'D': serverdown mode *)
Definition case_D : M unit :=
  a0 <- argv fields 0 ;;
  play <- call_atoi a0 ;;
  a1 <- argv fields 1 ;;
  duration <- call_parse_duration a1 ;;
  when (duration <? 0) (error "invalid duration" ;; return_ 1) ;;
  store 2 (if play =? 0 then 0 else 1) ;;
  store 3 (Z.shiftr duration 8) ;;
  store 4 (Z.land duration 0xff).

Definition switch (cmd : ascii) : M unit :=
  if Ascii.eqb cmd "P" then case_P
  else if Ascii.eqb cmd "c" then case_c
  else if Ascii.eqb cmd "n" then case_n
  else if Ascii.eqb cmd "p" then case_p
  else if Ascii.eqb cmd "D" then case_D
  else
    error ("unknown command '" ++ String cmd "'. Try 'blink -h' for help.") ;;
    return_ 1.

End Switch.

(** [b = buf], read where [write] is handed the buffer. *)
Definition get_buf : M (list Z) := fun st => (Next (buf st), st).

(** The body of [main] once [getopt] has returned -1. [args] is
    [argv[optind .. argc - 1]], and [wr] is what [write] will return. *)
Definition main_fields (args : list string) (wr : Z) : M Z :=
  let argr := Z.of_nat (List.length args) in
  match args with
  | [] =>
      error "Put colors! Try 'blink -h' for more information." ;;
      return_ 1
  | a :: fields =>
      if negb (strlen a =? 1) then
        error "Put colors! Try 'blink -h' for more information." ;;
        return_ 1
      else
        let argr := argr - 1 in
        let cmd := match a with String c _ => c | EmptyString => zero end in
        store 1 (code cmd) ;;
        check_syntax commands cmd argr ;;
        switch fields cmd ;;
        b <- get_buf ;;
        emit (Write b wr) ;;
        return_ (if negb (wr =? MSG_SIZE) then 1 else 0)
  end.

(** [main]. The command line reaches it as [getopt] splits it: [opts]
    are the option characters [getopt] yields in turn before -1 ("?" for
    an option it does not know), [args] the arguments from [optind] on.
    The trace holds what [main] itself prints: the line that [getopt]
    puts on standard error for an option it does not know, before it
    yields "?", is not part of it. *)
Definition main_body (opts : list ascii) (args : list string) (wr : Z) : M Z :=
  match opts with
  | c :: _ =>
      if Ascii.eqb c "h" then
        printf (USAGE ++ nl ++ USAGE_OPTIONS ++ nl ++ "Commands:" ++ nl) ;;
        print_commands commands ;;
        return_ 0
      else if Ascii.eqb c "c" then
        print_colors colors ;;
        return_ 0
      else
        error USAGE_OPTIONS ;;
        return_ 1
  | [] => main_fields args wr
  end.

Definition init : state := State [1; 0; 0; 0; 0; 0; 0; 0; 0] [].

(** A whole run: how it ended, and what it did. *)
Definition main (opts : list ascii) (args : list string) (wr : Z)
  : result Z * list event :=
  let (r, st) := main_body opts args wr init in (r, trace st).


(** ** What a run shows outside *)

(** The bytes that reach standard output: the text of every [printf],
    and of the buffer handed to [write] as many bytes as it took. *)
Definition bytes_of (s : string) : list Z :=
  List.map code (list_ascii_of_string s).

Fixpoint written (tr : list event) : list Z :=
  match tr with
  | [] => []
  | Printf text :: tr' => bytes_of text ++ written tr'
  | Write bytes n :: tr' => firstn (Z.to_nat n) bytes ++ written tr'
  | _ :: tr' => written tr'
  end.

(** The text sent to standard error. *)
Fixpoint errors (tr : list event) : list string :=
  match tr with
  | [] => []
  | Error text :: tr' => text :: errors tr'
  | _ :: tr' => errors tr'
  end.

(** The stores into [buf], in the order they happen. *)
Fixpoint stores (tr : list event) : list (nat * Z) :=
  match tr with
  | [] => []
  | Store i v :: tr' => (i, v) :: stores tr'
  | _ :: tr' => stores tr'
  end.

(** The parser calls, in the order they happen. *)
Fixpoint calls (tr : list event) : list (callee * string) :=
  match tr with
  | [] => []
  | Call f a :: tr' => (f, a) :: calls tr'
  | _ :: tr' => calls tr'
  end.

Definition is_write (e : event) : bool :=
  match e with Write _ _ => true | _ => false end.

(** ** Reference notions the parsers are compared with *)

Fixpoint string_forall (p : ascii -> bool) (s : string) : bool :=
  match s with
  | EmptyString => true
  | String c s' => p c && string_forall p s'
  end.

(** A string of hexadecimal digits read in positional notation. *)
Fixpoint hex_value (s : string) : Z :=
  match s with
  | EmptyString => 0
  | String c s' =>
      match digit_in 16 c with
      | Some d => d * 16 ^ Z.of_nat (String.length s') + hex_value s'
      | None => 0
      end
  end.

(** The characters of a token that [strtoul] reads in base 16 up to its
    end: white space, a plus sign, the "x" of the prefix, hex digits. *)
Definition hex_token_char (c : ascii) : bool :=
  isspace c || Ascii.eqb c "+" || Ascii.eqb c "x" || Ascii.eqb c "X"
  || isxdigit c.

(** ** Triples for the statements of main

    [triple P c Q E]: from a state in [P], the statement [c] either
    falls through in a state of [Q], or returns from [main] with a
    status and a state in [E], or is undefined. *)
Definition triple {A} (P : state -> Prop) (c : M A)
    (Q : A -> state -> Prop) (E : Z -> state -> Prop) : Prop :=
  forall st, P st ->
    match c st with
    | (Next a, st') => Q a st'
    | (Return n, st') => E n st'
    | (Undefined, _) => True
    end.

(** An event that puts nothing on standard output. *)
Definition quiet (e : event) : bool :=
  match e with
  | Printf _ | Write _ _ => false
  | _ => true
  end.

(** What holds of the buffer from the store of the command letter up to
    the [write]: 9 bytes, the report id, the letter, the last byte still
    0, and nothing sent to standard output so far. *)
Record report_inv (cmd : ascii) (st : state) : Prop := ReportInv {
  inv_length : List.length (buf st) = 9%nat;
  inv_id : buf st !! 0%nat = Some 1;
  inv_cmd : buf st !! 1%nat = Some (code cmd);
  inv_last : buf st !! 8%nat = Some 0;
  inv_quiet : forallb quiet (trace st) = true
}.

(** A statement that keeps [report_inv] and can only return status 1. *)
Definition keeps {A} (cmd : ascii) (c : M A) : Prop :=
  triple (report_inv cmd) c (fun _ => report_inv cmd) (fun n _ => n = 1).

(** The calls of [write]: the buffer handed over and what it returned. *)
Fixpoint writes (tr : list event) : list (list Z * Z) :=
  match tr with
  | [] => []
  | Write bytes n :: tr' => (bytes, n) :: writes tr'
  | _ :: tr' => writes tr'
  end.

(** A string of decimal digits read in positional notation. *)
Fixpoint dec_value (s : string) : Z :=
  match s with
  | EmptyString => 0
  | String c s' =>
      match digit_in 10 c with
      | Some d => d * 10 ^ Z.of_nat (String.length s') + dec_value s'
      | None => 0
      end
  end.

(** A [float] whose mantissa, when it has one, fits the 24 bits of the
    format, as every result of an operation does. *)
Definition mantissa_fits (x : Float32.float) : Prop :=
  match x with
  | S754_finite _ m _ => Zpos m < 2 ^ Float32.prec
  | _ => True
  end.

(** The three ways a run without options ends: one error message (one
    use of the [error] macro, of one or more lines) and status 1 with
    nothing written; the one [write] of the 9-byte buffer, with
    status 0 when it was taken whole and 1 otherwise, and nothing on
    standard error; or a duration whose conversion to [int] is not
    defined. *)
Definition run_shape (wr : Z) (run : result Z * list event) : Prop :=
  let (r, tr) := run in
  (r = Return 1 /\ List.length (errors tr) = 1%nat /\
   writes tr = [] /\ written tr = []) \/
  (r = Return (if wr =? MSG_SIZE then 0 else 1) /\ errors tr = [] /\
   exists b, writes tr = [(b, wr)] /\ List.length b = 9%nat /\
             written tr = firstn (Z.to_nat wr) b) \/
  (r = Undefined /\ errors tr = [] /\ writes tr = [] /\ written tr = [] /\
   exists d, In (Parse_duration, d) (calls tr) /\ parse_duration d = None).

(** The [float] that holds the whole number [p] exactly: a mantissa of
    24 bits, [p] shifted left as far as it goes. *)
Definition whole_float (x : Float32.float) (p : positive) : Prop :=
  exists m,
    x = S754_finite false m (Zpos (digits2_pos p) - 24) /\
    Zpos m = Zpos p * 2 ^ (24 - Zpos (digits2_pos p)) /\
    Zpos (digits2_pos p) <= 24.

(** A character that ends a decimal number for [strtof]: no digit, no
    radix point, no exponent letter, and not the "x" of a hex prefix. *)
Definition ends_number (c : ascii) : bool :=
  negb (isdigit c) && negb (Ascii.eqb c ".")
  && negb (Ascii.eqb (tolower c) "e") && negb (Ascii.eqb (tolower c) "x").

(** * Properties *)

(** ** Characters *)

Ltac by_ascii c :=
  destruct c as [[] [] [] [] [] [] [] []]; vm_compute; try reflexivity;
  try discriminate; intuition congruence.

Lemma isxdigit_not_space c : isxdigit c = true -> isspace c = false.
Proof. by_ascii c. Qed.

Lemma isxdigit_not_sign c :
  isxdigit c = true -> c <> "+"%char /\ c <> "-"%char.
Proof. by_ascii c. Qed.

Lemma isxdigit_not_x c :
  isxdigit c = true -> (Ascii.eqb c "x" || Ascii.eqb c "X") = false.
Proof. by_ascii c. Qed.

Lemma digit_val_nonneg c d : digit_val c = Some d -> 0 <= d.
Proof.
  unfold digit_val.
  repeat match goal with
         | |- context [if ?b then _ else _] => destruct b eqn:?
         end; intros [= <-]; lia.
Qed.

Lemma isxdigit_digit c :
  isxdigit c = true -> exists d, digit_in 16 c = Some d /\ 0 <= d < 16.
Proof.
  unfold isxdigit, digit_in.
  destruct (digit_val c) as [d|] eqn:Hd; [|discriminate].
  destruct (Z.ltb_spec d 16); [|discriminate].
  intros _. exists d. split; [reflexivity|].
  split; [eapply digit_val_nonneg; eassumption | assumption].
Qed.

(** ** Strings of digits *)

Lemma string_forall_app p s t :
  string_forall p (s ++ t) = string_forall p s && string_forall p t.
Proof.
  induction s as [|c s IH]; simpl; [reflexivity|].
  rewrite IH. apply andb_assoc.
Qed.

Lemma hex_value_bound s :
  string_forall isxdigit s = true ->
  0 <= hex_value s < 16 ^ Z.of_nat (String.length s).
Proof.
  induction s as [|c s IH]; intros H.
  - simpl. lia.
  - cbn [string_forall] in H. apply andb_prop in H as [Hc Hs].
    specialize (IH Hs).
    destruct (isxdigit_digit c Hc) as (d & Hd & Hr).
    cbn [hex_value String.length]. rewrite Hd.
    rewrite Nat2Z.inj_succ, Z.pow_succ_r by lia. nia.
Qed.

(** The digit loop of [strtoul] computes the positional value. *)
Lemma scan_digits_hex s : forall acc,
  string_forall isxdigit s = true ->
  scan_digits 16 s acc =
    (acc * 16 ^ Z.of_nat (String.length s) + hex_value s, "").
Proof.
  induction s as [|c s IH]; intros acc H.
  - simpl. f_equal. lia.
  - cbn [string_forall] in H. apply andb_prop in H as [Hc Hs].
    destruct (isxdigit_digit c Hc) as (d & Hd & Hr).
    cbn [scan_digits hex_value String.length]. rewrite Hd, (IH _ Hs).
    f_equal. rewrite Nat2Z.inj_succ, Z.pow_succ_r by lia. ring.
Qed.

Lemma skip_space_app ws s :
  string_forall isspace ws = true -> skip_space (ws ++ s) = skip_space s.
Proof.
  induction ws as [|c ws IH]; simpl; [reflexivity|].
  intros H. apply andb_prop in H as [-> Hs]. auto.
Qed.

Lemma skip_space_hex s :
  string_forall isxdigit s = true -> skip_space s = s.
Proof.
  destruct s as [|c s]; [reflexivity|]. simpl. intros H.
  apply andb_prop in H as [Hc _].
  rewrite (isxdigit_not_space c Hc). reflexivity.
Qed.

Lemma take_sign_hex s :
  string_forall isxdigit s = true -> take_sign s = (false, s).
Proof.
  destruct s as [|c s]; [reflexivity|]. simpl. intros H.
  apply andb_prop in H as [Hc _].
  destruct (isxdigit_not_sign c Hc) as [Hp Hm].
  revert Hp Hm. clear. by_ascii c.
Qed.

Lemma skip_hex_prefix_hex s :
  string_forall isxdigit s = true -> skip_hex_prefix s = s.
Proof.
  destruct s as [|c [|x s]]; try reflexivity.
  - unfold skip_hex_prefix. destruct c as [[] [] [] [] [] [] [] []]; reflexivity.
  - intros H. cbn [string_forall] in H.
    apply andb_prop in H as [_ H]. apply andb_prop in H as [Hx _].
    unfold skip_hex_prefix. rewrite (isxdigit_not_x x Hx). simpl.
    destruct c as [[] [] [] [] [] [] [] []]; reflexivity.
Qed.

Lemma starts_with_hex s :
  string_forall isxdigit s = true -> s <> "" ->
  starts_with_digit 16 s = true.
Proof.
  destruct s as [|c s]; [congruence|]. simpl. intros H _.
  apply andb_prop in H as [Hc _]. exact Hc.
Qed.

(** [strtoul] on a plain run of hex digits. *)
Lemma strtoul_hex s :
  string_forall isxdigit s = true -> s <> "" ->
  strtoul s 16 =
    (if hex_value s >? ULONG_MAX then ULONG_MAX else hex_value s, "").
Proof.
  intros H Hne. unfold strtoul.
  rewrite (skip_space_hex s H), (take_sign_hex s H).
  change (16 =? 16) with true. cbv iota.
  rewrite (skip_hex_prefix_hex s H), (starts_with_hex s H Hne).
  rewrite (scan_digits_hex s 0 H). reflexivity.
Qed.

(** ** The registry *)

Lemma find_color_In tbl s v : find_color tbl s = Some v -> In (s, v) tbl.
Proof.
  induction tbl as [|[name value] tbl IH]; simpl; [discriminate|].
  unfold streq. destruct (String.eqb_spec name s) as [->|_].
  - intros [= ->]. left. reflexivity.
  - intros H. right. auto.
Qed.

(** No name of the registry can be read as a hexadecimal token. *)
Lemma find_color_hex_token s :
  string_forall hex_token_char s = true -> find_color colors s = None.
Proof.
  intros H. destruct (find_color colors s) as [v|] eqn:E; [|reflexivity].
  apply find_color_In in E. simpl in E.
  repeat destruct E as [E|E]; try contradiction;
    injection E as <- _; vm_compute in H; discriminate.
Qed.

Lemma isxdigit_hex_token s :
  string_forall isxdigit s = true -> string_forall hex_token_char s = true.
Proof.
  induction s as [|c s IH]; [reflexivity|]. cbn [string_forall].
  intros H. apply andb_prop in H as [Hc Hs].
  rewrite (IH Hs), andb_true_r. unfold hex_token_char. rewrite Hc.
  apply orb_true_r.
Qed.

Lemma isspace_hex_token s :
  string_forall isspace s = true -> string_forall hex_token_char s = true.
Proof.
  induction s as [|c s IH]; [reflexivity|]. cbn [string_forall].
  intros H. apply andb_prop in H as [Hc Hs].
  rewrite (IH Hs), andb_true_r. unfold hex_token_char. rewrite Hc.
  reflexivity.
Qed.

Section HexForms.

Variables (sg px ds : string).
Hypothesis Hsg : sg = "" \/ sg = "+" \/ sg = "-".
Hypothesis Hpx : px = "" \/ px = "0x" \/ px = "0X".
Hypothesis Hds : string_forall isxdigit ds = true.
Hypothesis Hne : ds <> "".

Lemma prefix_digits_skip : skip_hex_prefix (px ++ ds) = ds.
Proof.
  destruct Hpx as [-> | [-> | ->]].
  - apply skip_hex_prefix_hex, Hds.
  - cbn [append skip_hex_prefix].
    change (Ascii.eqb "x" "x" || Ascii.eqb "x" "X") with true.
    rewrite (starts_with_hex ds Hds Hne). reflexivity.
  - cbn [append skip_hex_prefix].
    change (Ascii.eqb "X" "x" || Ascii.eqb "X" "X") with true.
    rewrite (starts_with_hex ds Hds Hne). reflexivity.
Qed.

Lemma prefix_digits_sign : take_sign (px ++ ds) = (false, px ++ ds).
Proof.
  destruct Hpx as [-> | [-> | ->]]; [apply take_sign_hex, Hds | | ];
    reflexivity.
Qed.

Lemma prefix_digits_space : skip_space (px ++ ds) = px ++ ds.
Proof.
  destruct Hpx as [-> | [-> | ->]]; [apply skip_space_hex, Hds | | ];
    reflexivity.
Qed.

Lemma sign_prefix_digits :
  take_sign (skip_space (sg ++ px ++ ds)) = (String.eqb sg "-", px ++ ds).
Proof.
  destruct Hsg as [-> | [-> | ->]].
  - cbn [append]. rewrite prefix_digits_space. apply prefix_digits_sign.
  - reflexivity.
  - reflexivity.
Qed.

(** [strtoul] in base 16 on white space, a sign, a prefix and digits. *)
Lemma strtoul_forms ws :
  string_forall isspace ws = true ->
  strtoul (ws ++ sg ++ px ++ ds) 16 =
    (if hex_value ds >? ULONG_MAX then ULONG_MAX
     else if String.eqb sg "-" then (- hex_value ds) mod 2 ^ 64
     else hex_value ds, "").
Proof.
  intros Hws. unfold strtoul.
  rewrite skip_space_app by assumption.
  rewrite sign_prefix_digits. change (16 =? 16) with true. cbv iota.
  rewrite prefix_digits_skip, (starts_with_hex ds Hds Hne).
  rewrite (scan_digits_hex ds 0 Hds). reflexivity.
Qed.

Lemma forms_hex_token ws :
  string_forall isspace ws = true ->
  sg <> "-" ->
  string_forall hex_token_char (ws ++ sg ++ px ++ ds) = true.
Proof.
  intros Hws Hm. rewrite !string_forall_app.
  rewrite (isspace_hex_token ws Hws), (isxdigit_hex_token ds Hds).
  destruct Hsg as [-> | [-> | ->]]; [| | congruence];
    destruct Hpx as [-> | [-> | ->]]; reflexivity.
Qed.

End HexForms.

(** ** parse_color *)

Lemma hex_value_6 s :
  string_forall isxdigit s = true -> (String.length s <= 6)%nat ->
  0 <= hex_value s <= 0xFFFFFF.
Proof.
  intros H Hl. pose proof (hex_value_bound s H) as Hb.
  assert (16 ^ Z.of_nat (String.length s) <= 16 ^ 6)
    by (apply Z.pow_le_mono_r; lia).
  change (16 ^ 6) with 16777216 in *. lia.
Qed.

Lemma length_nonempty s : (1 <= String.length s)%nat -> s <> "".
Proof. destruct s; simpl; [lia | discriminate]. Qed.

Lemma at_nul_app_r s t : at_nul t = false -> at_nul (s ++ t) = false.
Proof. destruct s; simpl; congruence. Qed.

Lemma at_nul_nonempty s : s <> "" -> at_nul s = false.
Proof. destruct s; simpl; congruence. Qed.

(** The names are matched with [strcmp]: another case is another token. *)
Example parse_color_case_sensitive :
  parse_color "Red" = -1 /\ parse_color "BLUE" = -1.
Proof. split; reflexivity. Qed.

(** C4. [parse_color] gives every name of the registry its value, which
    the channel macros R, G, B split into three bytes that put together
    give the value back; a string of 1 to 6 hex digits gives the number
    it writes in base 16; and a token that is no name of the registry
    gives the error value -1 when it is empty, when [strtoul] leaves
    characters unread, or when its value exceeds 0xFFFFFF. *)
Theorem parse_color_resolves :
  (forall name value, In (name, value) colors ->
     parse_color name = value /\
     0 <= R value <= 255 /\ 0 <= G value <= 255 /\ 0 <= B value <= 255 /\
     R value * 65536 + G value * 256 + B value = value) /\
  (forall s, string_forall isxdigit s = true ->
     (1 <= String.length s <= 6)%nat -> parse_color s = hex_value s) /\
  (forall s, find_color colors s = None ->
     s = "" \/ snd (strtoul s 16) <> "" \/ fst (strtoul s 16) > 0xFFFFFF ->
     parse_color s = -1) /\
  (forall s, string_forall isxdigit s = true ->
     hex_value s > 0xFFFFFF -> parse_color s = -1).
Proof.
  split; [|split; [|split]].
  - intros name value H. simpl in H.
    repeat destruct H as [H|H]; try contradiction;
      injection H as <- <-; vm_compute; intuition discriminate.
  - intros s H [Hl1 Hl6]. unfold parse_color.
    rewrite (find_color_hex_token s (isxdigit_hex_token s H)).
    pose proof (hex_value_6 s H Hl6) as Hb.
    rewrite (strtoul_hex s H (length_nonempty s Hl1)).
    destruct (Z.gtb_spec (hex_value s) ULONG_MAX) as [Hgt|_];
      [unfold ULONG_MAX in Hgt; lia|].
    destruct (Z.gtb_spec (hex_value s) 0xFFFFFF) as [Hgt|_]; [lia|].
    destruct s; [simpl in Hl1; lia | reflexivity].
  - intros s Hreg H. unfold parse_color. rewrite Hreg.
    destruct (strtoul s 16) as [v e]. cbn [fst snd] in H.
    destruct (Z.gtb_spec v 0xFFFFFF) as [_|Hle]; [reflexivity|].
    destruct H as [-> | [H | H]]; [reflexivity | | lia].
    destruct e; [congruence|]. rewrite andb_false_r. reflexivity.
  - intros s H Hbig. unfold parse_color.
    rewrite (find_color_hex_token s (isxdigit_hex_token s H)).
    assert (s <> "") as Hne by (intros ->; simpl in Hbig; lia).
    rewrite (strtoul_hex s H Hne).
    destruct (Z.gtb_spec (hex_value s) ULONG_MAX) as [_|_].
    + reflexivity.
    + destruct (Z.gtb_spec (hex_value s) 0xFFFFFF) as [_|Hle];
        [reflexivity | lia].
Qed.

Lemma parse_color_resolves_witness :
  parse_color "purple" = 0xFF00FF /\
  parse_color "1a2B3c" = 0x1A2B3C /\
  parse_color "12zz" = -1 /\
  parse_color "1000000" = -1.
Proof.
  destruct parse_color_resolves as (Hreg & Hhex & Hbad & Hbig).
  split; [|split; [|split]].
  - apply (Hreg "purple" 0xFF00FF). simpl. tauto.
  - apply (Hhex "1a2B3c"); [reflexivity | simpl; lia].
  - apply (Hbad "12zz"); [reflexivity | right; left; vm_compute; discriminate].
  - apply (Hbig "1000000"); reflexivity.
Defined.

Lemma string_forall_impl (p q : ascii -> bool) (s : string) :
  (forall c, p c = true -> q c = true) ->
  string_forall p s = true -> string_forall q s = true.
Proof.
  intros Hpq. induction s as [|c s IH]; [reflexivity|].
  cbn [string_forall]. intros H. apply andb_prop in H as [Hc Hs].
  rewrite (Hpq c Hc), (IH Hs). reflexivity.
Qed.

(** No name of the registry is made of token characters and signs. *)
Lemma find_color_signed_token s :
  string_forall (fun c => hex_token_char c || Ascii.eqb c "-") s = true ->
  find_color colors s = None.
Proof.
  intros H. destruct (find_color colors s) as [v|] eqn:E; [|reflexivity].
  apply find_color_In in E. simpl in E.
  repeat destruct E as [E|E]; try contradiction;
    injection E as <- _; vm_compute in H; discriminate.
Qed.

Lemma forms_signed_token (ws sg px ds : string) :
  string_forall isspace ws = true ->
  sg = "" \/ sg = "+" \/ sg = "-" ->
  px = "" \/ px = "0x" \/ px = "0X" ->
  string_forall isxdigit ds = true ->
  string_forall (fun c => hex_token_char c || Ascii.eqb c "-")
    (ws ++ sg ++ px ++ ds) = true.
Proof.
  intros Hws Hsg Hpx Hds. rewrite !string_forall_app.
  rewrite (string_forall_impl isspace _ ws) by
    (intros c Hc; unfold hex_token_char; rewrite Hc; reflexivity) || exact Hws.
  rewrite (string_forall_impl isxdigit _ ds) by
    (intros c Hc; unfold hex_token_char; rewrite Hc;
     rewrite !orb_true_r; reflexivity) || exact Hds.
  destruct Hsg as [-> | [-> | ->]]; destruct Hpx as [-> | [-> | ->]];
    reflexivity.
Qed.

(** C10. [parse_color] reads its token with [strtoul] in base 16, so
    white space in front, a sign ("+" or "-") and a "0x" or "0X" prefix
    are accepted before hex digits of any count: the token resolves to
    the value [strtoul] gives (the digits' value, capped at [ULONG_MAX],
    negated in [unsigned long] after a minus sign) whenever that value
    does not exceed 0xFFFFFF, and is rejected otherwise. "0xFF" is
    0xFF, and such tokens are not strings of 1 to 6 hex digits. *)
Theorem parse_color_strtoul_forms :
  parse_color "0xFF" = 0xFF /\
  (forall ws sg px ds,
     string_forall isspace ws = true ->
     sg = "" \/ sg = "+" \/ sg = "-" ->
     px = "" \/ px = "0x" \/ px = "0X" ->
     string_forall isxdigit ds = true -> ds <> "" ->
     let v := hex_value ds in
     let value :=
       if v >? ULONG_MAX then ULONG_MAX
       else if String.eqb sg "-" then (- v) mod 2 ^ 64 else v in
     parse_color (ws ++ sg ++ px ++ ds) =
       if value >? 0xFFFFFF then -1 else value) /\
  (forall ws sg px ds,
     string_forall isspace ws = true ->
     sg = "" \/ sg = "+" ->
     px = "" \/ px = "0x" \/ px = "0X" ->
     string_forall isxdigit ds = true -> ds <> "" ->
     hex_value ds <= 0xFFFFFF ->
     parse_color (ws ++ sg ++ px ++ ds) = hex_value ds) /\
  parse_color "-0" = 0 /\ parse_color " -0x0" = 0 /\
  parse_color "0x0000000ff" = 0xFF /\
  (exists token,
     string_forall isxdigit token = false /\ parse_color token = 0xFF).
Proof.
  assert (forall ws sg px ds,
     string_forall isspace ws = true ->
     sg = "" \/ sg = "+" \/ sg = "-" ->
     px = "" \/ px = "0x" \/ px = "0X" ->
     string_forall isxdigit ds = true -> ds <> "" ->
     parse_color (ws ++ sg ++ px ++ ds) =
       if (if hex_value ds >? ULONG_MAX then ULONG_MAX
           else if String.eqb sg "-" then (- hex_value ds) mod 2 ^ 64
           else hex_value ds) >? 0xFFFFFF
       then -1
       else (if hex_value ds >? ULONG_MAX then ULONG_MAX
             else if String.eqb sg "-" then (- hex_value ds) mod 2 ^ 64
             else hex_value ds)) as Hgen.
  { intros ws sg px ds Hws Hsg Hpx Hds Hne. unfold parse_color.
    rewrite (find_color_signed_token _
               (forms_signed_token ws sg px ds Hws Hsg Hpx Hds)).
    rewrite (strtoul_forms sg px ds Hsg Hpx Hds Hne ws Hws).
    assert (Hnn : at_nul (ws ++ sg ++ px ++ ds) = false)
      by (repeat apply at_nul_app_r; apply at_nul_nonempty, Hne).
    rewrite Hnn. destruct (_ >? 0xFFFFFF); reflexivity. }
  split; [reflexivity|]. split; [|split].
  - intros ws sg px ds Hws Hsg Hpx Hds Hne v value. subst v value.
    apply Hgen; assumption.
  - intros ws sg px ds Hws Hsg Hpx Hds Hne Hle.
    pose proof (hex_value_bound ds Hds) as [Hnonneg _].
    rewrite Hgen by tauto.
    replace (String.eqb sg "-") with false
      by (destruct Hsg as [-> | ->]; reflexivity).
    destruct (Z.gtb_spec (hex_value ds) ULONG_MAX) as [Hgt|_];
      [unfold ULONG_MAX in Hgt; lia|].
    destruct (Z.gtb_spec (hex_value ds) 0xFFFFFF); [lia | reflexivity].
  - repeat split; try reflexivity.
    exists " +0XfF". split; reflexivity.
Qed.

Lemma parse_color_strtoul_forms_witness :
  parse_color "  +0x1f" = 0x1F /\ parse_color " -0x00" = 0 /\
  parse_color "-1" = -1.
Proof.
  destruct parse_color_strtoul_forms as (_ & Hgen & Hpos & _).
  split; [|split].
  - apply (Hpos "  " "+" "0x" "1f");
      [reflexivity | right; reflexivity | right; left; reflexivity
      | reflexivity | discriminate | vm_compute; discriminate].
  - apply (Hgen " " "-" "0x" "00");
      [reflexivity | right; right; reflexivity | right; left; reflexivity
      | reflexivity | discriminate].
  - apply (Hgen "" "-" "" "1");
      [reflexivity | right; right; reflexivity | left; reflexivity
      | reflexivity | discriminate].
Defined.

(** ** parse_duration *)

Example parse_duration_2s : parse_duration "2s" = Some 200.
Proof. reflexivity. Qed.

Example parse_duration_500ms : parse_duration "500ms" = Some 50.
Proof. reflexivity. Qed.

Example parse_duration_half_second : parse_duration ".5s" = Some 50.
Proof. reflexivity. Qed.

Example parse_duration_abc : parse_duration "abc" = Some (-1).
Proof. reflexivity. Qed.

Example parse_duration_negative : parse_duration "-5" = Some (-1).
Proof. reflexivity. Qed.

Example parse_duration_truncates : parse_duration "15ms" = Some 1.
Proof. reflexivity. Qed.

Example parse_duration_beyond_int : parse_duration "1e10" = None.
Proof. reflexivity. Qed.

(** The branches of [parse_duration], by what [strtof] leaves unread. *)
Lemma parse_duration_cases (d : string) :
  let value := fst (strtof d) in
  let end_ := snd (strtof d) in
  (d <> "" -> end_ = "" ->
   parse_duration d =
     option_map (fun n => CLAMP n (-1) DURATION_MAX) (Float32.to_int value)) /\
  (end_ = "s" ->
   parse_duration d =
     Float32.to_int
       (Float32.CLAMP (Float32.mul value (Float32.of_Z 100))
          (Float32.of_Z (-1)) (Float32.of_Z DURATION_MAX))) /\
  (end_ = "ms" ->
   parse_duration d =
     Float32.to_int
       (Float32.CLAMP (Float32.div value (Float32.of_Z 10))
          (Float32.of_Z (-1)) (Float32.of_Z DURATION_MAX))) /\
  (d = "" \/ (end_ <> "" /\ end_ <> "s" /\ end_ <> "ms") ->
   parse_duration d = Some (-1)).
Proof.
  unfold parse_duration. destruct (strtof d) as [v e] eqn:E. cbn [fst snd].
  repeat split.
  - intros Hd ->. rewrite (at_nul_nonempty d Hd). simpl.
    destruct (Float32.to_int v); reflexivity.
  - intros ->. rewrite andb_false_r. reflexivity.
  - intros ->. rewrite andb_false_r. reflexivity.
  - intros [-> | (H1 & H2 & H3)].
    + vm_compute in E. injection E as <- <-. reflexivity.
    + replace (at_nul e) with false by (destruct e; simpl; congruence).
      rewrite andb_false_r. unfold streq.
      destruct (String.eqb_spec e "s"); [contradiction|].
      destruct (String.eqb_spec e "ms"); [contradiction|]. reflexivity.
Qed.

(** The integer CLAMP is the clamp to the interval. *)
Lemma CLAMP_spec v lo hi : lo <= hi -> CLAMP v lo hi = Z.max lo (Z.min hi v).
Proof.
  intros H. unfold CLAMP, MAX, MIN.
  destruct (Z.ltb_spec hi v), (Z.gtb_spec lo hi), (Z.gtb_spec lo v); lia.
Qed.

(** C2, as the code has it. The token "100000ms" is 10000 hundredths of
    a second, which is below the ceiling, so it is returned as it is;
    the ceiling 65535 is reached by a longer time such as "1000000ms". *)
Theorem parse_duration_100000ms :
  parse_duration "100000ms" = Some 10000 /\
  parse_duration "1000000ms" = Some 65535.
Proof. split; reflexivity. Qed.

(** C2 as stated fails: the token "100000ms" does not give 65535. *)
Lemma parse_duration_100000ms_not_ceiling :
  parse_duration "100000ms" <> Some 65535.
Proof. vm_compute. discriminate. Qed.

(** C3 at the tokens "s" and "ms". [strtof] converts nothing there, so
    it gives 0 and leaves the whole token as the suffix; the suffix tests
    then succeed and the duration is 0, where a token without a numeric
    prefix should give -1. *)
Theorem parse_duration_bare_suffix :
  strtof "s" = (S754_zero false, "s") /\
  parse_duration "s" = Some 0 /\
  strtof "ms" = (S754_zero false, "ms") /\
  parse_duration "ms" = Some 0.
Proof. repeat split; reflexivity. Qed.

(** ** Running main *)

Arguments atoi : simpl never.
Arguments parse_color : simpl never.
Arguments parse_duration : simpl never.
Arguments to_byte : simpl never.
Arguments R : simpl never.
Arguments G : simpl never.
Arguments B : simpl never.
Arguments show_int : simpl never.
Arguments CLAMP : simpl never.
Arguments Z.shiftr : simpl never.
Arguments Z.land : simpl never.

(** Unfold the statements of [main] and run them as far as they go. *)
Ltac run_main :=
  cbv [main main_body main_fields check_syntax commands switch
       case_P case_c case_n case_p case_D
       bind ret store emit error printf when return_ undefined get_buf
       argv call_atoi call_parse_color call_parse_duration
       cmd_char cmd_argc cmd_usage cmd_desc init buf trace nth_error];
  simpl.

Lemma to_byte_small v : 0 <= v < 256 -> to_byte v = v.
Proof. intros H. unfold to_byte. apply Z.mod_small, H. Qed.

Lemma position_ok p : 0 <= p <= 11 -> (p <? 0) || (p >? 11) = false.
Proof. intros H. destruct (Z.ltb_spec p 0), (Z.gtb_spec p 11); simpl; lia. Qed.

Lemma position_bad p : p < 0 \/ 11 < p -> (p <? 0) || (p >? 11) = true.
Proof. intros H. destruct (Z.ltb_spec p 0), (Z.gtb_spec p 11); simpl; lia. Qed.

Lemma duration_ok d : 0 <= d -> (d <? 0) = false.
Proof. intros H. apply Z.ltb_ge, H. Qed.

Lemma duration_bad d : d < 0 -> (d <? 0) = true.
Proof. intros H. apply Z.ltb_lt, H. Qed.

(** The color is stored unchecked: for every token that [parse_color]
    rejects, [blink n] sends a report with the three channels at 255. *)
Lemma main_n_unchecked_color (c : string) (wr : Z) :
  parse_color c = -1 ->
  main [] ["n"; c] wr =
    (Return (if negb (wr =? MSG_SIZE) then 1 else 0),
     [Store 1 110; Call Parse_color c;
      Store 2 255; Store 3 255; Store 4 255;
      Write [1; 110; 255; 255; 255; 0; 0; 0; 0] wr]).
Proof. intros H. run_main. rewrite H. reflexivity. Qed.

(** C1 at the invocation [blink n zzz]. The token "zzz" is no color, and
    [parse_color] says so with -1, but [main] does not look: the run
    reports nothing to standard error, writes a report with the channels
    (255, 255, 255) and exits with status 0. *)
Theorem main_n_invalid_color :
  parse_color "zzz" = -1 /\
  main [] ["n"; "zzz"] 9 =
    (Return 0,
     [Store 1 110; Call Parse_color "zzz";
      Store 2 255; Store 3 255; Store 4 255;
      Write [1; 110; 255; 255; 255; 0; 0; 0; 0] 9]) /\
  errors (snd (main [] ["n"; "zzz"] 9)) = [] /\
  written (snd (main [] ["n"; "zzz"] 9)) = [1; 110; 255; 255; 255; 0; 0; 0; 0].
Proof. repeat split; reflexivity. Qed.

(** [blink c red s] is accepted: the fade time "s" is taken as 0. *)
Example main_c_bare_suffix :
  main [] ["c"; "red"; "s"] 9 =
    (Return 0,
     [Store 1 99; Call Parse_duration "s"; Store 5 0; Store 6 0;
      Call Parse_color "red"; Store 2 255; Store 3 0; Store 4 0;
      Write [1; 99; 255; 0; 0; 0; 0; 0; 0] 9]).
Proof. reflexivity. Qed.

Example main_n_red :
  written (snd (main [] ["n"; "red"] 9)) = [1; 0x6E; 0xFF; 0; 0; 0; 0; 0; 0].
Proof. reflexivity. Qed.

Example main_c_blue :
  written (snd (main [] ["c"; "blue"; ".5s"] 9)) =
    [1; 99; 0; 0; 255; 0; 0x32; 0; 0].
Proof. reflexivity. Qed.

(** C5. [blink P green 2s 2] writes the report with the position 2 in
    byte 7, the duration 200 in bytes 5-6 (high byte first) and the
    channels (0, 255, 0) in bytes 2-4; and every run of P that passes
    its checks parses and stores the position first, then the duration,
    then the color, into the one buffer that is written. *)
Theorem main_P_green :
  main [] ["P"; "green"; "2s"; "2"] 9 =
    (Return 0,
     [Store 1 80;
      Call Atoi "2"; Store 7 2;
      Call Parse_duration "2s"; Store 5 0; Store 6 200;
      Call Parse_color "green"; Store 2 0; Store 3 255; Store 4 0;
      Write [1; 80; 0; 255; 0; 0; 200; 2; 0] 9]) /\
  (forall col d pos dur wr,
     0 <= atoi pos <= 11 ->
     parse_duration d = Some dur -> 0 <= dur ->
     let rgb := parse_color col in
     let hi := to_byte (Z.shiftr dur 8) in
     let lo := to_byte (Z.land dur 0xff) in
     main [] ["P"; col; d; pos] wr =
       (Return (if negb (wr =? MSG_SIZE) then 1 else 0),
        [Store 1 80;
         Call Atoi pos; Store 7 (atoi pos);
         Call Parse_duration d; Store 5 hi; Store 6 lo;
         Call Parse_color col;
         Store 2 (to_byte (R rgb)); Store 3 (to_byte (G rgb));
         Store 4 (to_byte (B rgb));
         Write [1; 80; to_byte (R rgb); to_byte (G rgb); to_byte (B rgb);
                hi; lo; atoi pos; 0] wr])).
Proof.
  split; [reflexivity|].
  intros col d pos dur wr Hpos Hd Hdur. run_main.
  rewrite (position_ok _ Hpos), Hd, (duration_ok _ Hdur).
  rewrite (to_byte_small (atoi pos)) by lia. reflexivity.
Qed.

Lemma main_P_green_witness :
  stores (snd (main [] ["P"; "ff8000"; "1500ms"; "11"] 9)) =
    [(1%nat, 80); (7%nat, 11); (5%nat, 0); (6%nat, 150);
     (2%nat, 255); (3%nat, 128); (4%nat, 0)].
Proof.
  destruct main_P_green as [_ H].
  rewrite (H "ff8000" "1500ms" "11" 150 9);
    [reflexivity | vm_compute; intuition discriminate | reflexivity | lia].
Defined.

(** After a one-letter command, [argr] is the count of the fields that
    follow it. *)
Lemma main_fields_cmd (cmd : ascii) (fields : list string) (wr : Z) :
  main_fields (String cmd "" :: fields) wr =
    (store 1 (code cmd) ;;
     check_syntax commands cmd (Z.of_nat (List.length fields)) ;;
     switch fields cmd ;;
     b <- get_buf ;;
     emit (Write b wr) ;;
     return_ (if negb (wr =? MSG_SIZE) then 1 else 0)).
Proof.
  unfold main_fields.
  change (negb (strlen (String cmd "") =? 1)) with false. cbv iota.
  replace (Z.of_nat (List.length (String cmd "" :: fields)) - 1)
    with (Z.of_nat (List.length fields))
    by (cbn [List.length]; lia).
  reflexivity.
Qed.

Lemma check_syntax_mismatch (c : command) (argr : Z) (st : state) :
  In c commands -> argr <> cmd_argc c ->
  check_syntax commands (cmd_char c) argr st =
    (Return 1,
     State (buf st)
           (trace st ++ [Error (cmd_desc c ++ nl ++ cmd_usage c ++ nl)])).
Proof.
  intros Hin Hne. simpl in Hin.
  repeat destruct Hin as [<- | Hin]; try contradiction;
    cbn [cmd_argc cmd_char cmd_desc cmd_usage] in *;
    apply Z.eqb_neq in Hne; run_main; rewrite Hne; reflexivity.
Qed.

(** C6. For each command of the table, a count of fields other than its
    [argc] ends the run with status 1 once the description and usage text
    of that command are on standard error; no parser has been called and
    nothing is written. [blink c red] is such a run. *)
Theorem wrong_argument_count :
  (forall c fields wr,
     In c commands -> Z.of_nat (List.length fields) <> cmd_argc c ->
     let run := main [] (String (cmd_char c) "" :: fields) wr in
     run = (Return 1,
            [Store 1 (code (cmd_char c));
             Error (cmd_desc c ++ nl ++ cmd_usage c ++ nl)]) /\
     calls (snd run) = [] /\ written (snd run) = []) /\
  (forall wr,
     main [] ["c"; "red"] wr =
       (Return 1,
        [Store 1 99; Error ("Fade to RGB color" ++ nl ++ USAGE_FADE ++ nl)])).
Proof.
  split; [|reflexivity].
  intros c fields wr Hin Hne run.
  assert (run = (Return 1,
            [Store 1 (code (cmd_char c));
             Error (cmd_desc c ++ nl ++ cmd_usage c ++ nl)])) as E.
  { subst run. unfold main, main_body. rewrite main_fields_cmd.
    unfold bind at 1. cbn [store init buf trace].
    unfold bind at 1. rewrite (check_syntax_mismatch c _ _ Hin Hne).
    cbn [buf trace app]. rewrite to_byte_small; [reflexivity|].
    clear. unfold code. destruct (cmd_char c) as [[] [] [] [] [] [] [] []];
      vm_compute; intuition discriminate. }
  rewrite E. repeat split; reflexivity.
Qed.

Lemma wrong_argument_count_witness :
  main [] ["P"; "green"; "2s"] 9 =
    (Return 1,
     [Store 1 80; Error ("Set pattern entry" ++ nl ++ USAGE_PATT ++ nl)]).
Proof.
  destruct wrong_argument_count as [H _].
  refine (proj1 (H (COMMAND "P" 3 USAGE_PATT "Set pattern entry")
                   ["green"; "2s"] 9 _ _)).
  - simpl. tauto.
  - simpl. lia.
Defined.

(** ** atoi *)

Lemma atoi_not_numeric (s : string) :
  starts_with_digit 10 (snd (take_sign (skip_space s))) = false ->
  atoi s = 0.
Proof.
  unfold atoi, strtol. destruct (take_sign (skip_space s)) as [neg s1].
  cbn [snd]. change (10 =? 16) with false. cbv iota.
  intros ->. reflexivity.
Qed.

Example atoi_abc : atoi "abc" = 0.
Proof. reflexivity. Qed.

Example atoi_prefix : atoi " -12abc" = -12.
Proof. reflexivity. Qed.

(** C7. [blink p A B] always sends its report: byte 2 is 1 or 0 as
    [atoi A] is nonzero or zero, byte 3 is [atoi B] brought into 0..11,
    nothing goes to standard error whatever the position is; and [atoi]
    of a text that does not start with a number is 0. *)
Theorem main_p_play :
  (forall a b wr,
     let flag := if atoi a =? 0 then 0 else 1 in
     let pos := Z.max 0 (Z.min 11 (atoi b)) in
     main [] ["p"; a; b] wr =
       (Return (if negb (wr =? MSG_SIZE) then 1 else 0),
        [Store 1 112; Call Atoi a; Call Atoi b;
         Store 2 flag; Store 3 pos;
         Write [1; 112; flag; pos; 0; 0; 0; 0; 0] wr])) /\
  (forall s,
     starts_with_digit 10 (snd (take_sign (skip_space s))) = false ->
     atoi s = 0) /\
  main [] ["p"; "on"; "99"] 9 =
    (Return 0,
     [Store 1 112; Call Atoi "on"; Call Atoi "99"; Store 2 0; Store 3 11;
      Write [1; 112; 0; 11; 0; 0; 0; 0; 0] 9]).
Proof.
  split; [|split; [exact atoi_not_numeric | reflexivity]].
  intros a b wr flag pos. run_main.
  rewrite CLAMP_spec by lia. fold pos.
  rewrite (to_byte_small pos) by (subst pos; lia).
  replace (to_byte (if atoi a =? 0 then 0 else 1)) with flag
    by (subst flag; destruct (atoi a =? 0); reflexivity).
  reflexivity.
Qed.

Lemma main_p_play_witness : atoi "  +x1" = 0.
Proof.
  destruct main_p_play as (_ & H & _). apply H. reflexivity.
Defined.

(** C8, as the code has it. With the right count of fields, a duration
    that [parse_duration] gives as negative (a token it rejects, or a
    negative time, which the clamp brings to -1) ends [c], [P] and [D]
    with status 1, and so does a position of [P] that [atoi] reads as
    an [int] outside 0..11; one line goes to standard error and no byte
    to standard output. *)
Theorem value_errors_write_nothing :
  (forall col d r wr, parse_duration d = Some r -> r < 0 ->
     let run := main [] ["c"; col; d] wr in
     fst run = Return 1 /\ written (snd run) = [] /\
     errors (snd run) = ["invalid duration" ++ nl]) /\
  (forall a d r wr, parse_duration d = Some r -> r < 0 ->
     let run := main [] ["D"; a; d] wr in
     fst run = Return 1 /\ written (snd run) = [] /\
     errors (snd run) = ["invalid duration" ++ nl]) /\
  (forall col d pos wr, atoi pos < 0 \/ 11 < atoi pos ->
     let run := main [] ["P"; col; d; pos] wr in
     fst run = Return 1 /\ written (snd run) = [] /\
     errors (snd run) = [("invalid position " ++ show_int (atoi pos)) ++ nl]) /\
  (forall col d pos r wr,
     0 <= atoi pos <= 11 -> parse_duration d = Some r -> r < 0 ->
     let run := main [] ["P"; col; d; pos] wr in
     fst run = Return 1 /\ written (snd run) = [] /\
     errors (snd run) = ["invalid duration" ++ nl]) /\
  parse_duration "-5" = Some (-1) /\
  (forall wr,
     main [] ["P"; "green"; "2s"; "12"] wr =
       (Return 1,
        [Store 1 80; Call Atoi "12"; Error ("invalid position 12" ++ nl)])).
Proof.
  split; [|split; [|split; [|split; [|split; [reflexivity|reflexivity]]]]].
  - intros col d r wr Hd Hr. run_main.
    rewrite Hd, (duration_bad _ Hr). repeat split; reflexivity.
  - intros a d r wr Hd Hr. run_main.
    rewrite Hd, (duration_bad _ Hr). repeat split; reflexivity.
  - intros col d pos wr Hp. run_main.
    rewrite (position_bad _ Hp). repeat split; reflexivity.
  - intros col d pos r wr Hp Hd Hr. run_main.
    rewrite (position_ok _ Hp), Hd, (duration_bad _ Hr).
    repeat split; reflexivity.
Qed.

Lemma value_errors_write_nothing_witness :
  written (snd (main [] ["c"; "red"; "5x"] 9)) = [] /\
  written (snd (main [] ["D"; "1"; "-2s"] 9)) = [] /\
  written (snd (main [] ["P"; "red"; "1s"; "-1"] 9)) = [] /\
  written (snd (main [] ["P"; "red"; "fast"; "3"] 9)) = [].
Proof.
  destruct value_errors_write_nothing as (Hc & HD & HP & HPd & _).
  split; [|split; [|split]].
  - refine (proj1 (proj2 (Hc "red" "5x" (-1) 9 _ _))); [reflexivity | lia].
  - refine (proj1 (proj2 (HD "1" "-2s" (-1) 9 _ _))); [reflexivity | lia].
  - refine (proj1 (proj2 (HP "red" "1s" "-1" 9 _))).
    left. vm_compute. reflexivity.
  - refine (proj1 (proj2 (HPd "red" "fast" "3" (-1) 9 _ _ _)));
      [vm_compute; intuition discriminate | reflexivity | lia].
Defined.

(** C8 as stated fails at [blink P red 0 4294967297]. The position
    argument is the number 4294967297, outside 0..11, but [atoi] brings
    it to the [int] 1, which passes the check: the run writes a report
    with position 1 and returns 0. *)
Lemma position_wraps_into_range :
  dec_value "4294967297" = 4294967297 /\
  atoi "4294967297" = 1 /\
  main [] ["P"; "red"; "0"; "4294967297"] 9 =
    (Return 0,
     [Store 1 80; Call Atoi "4294967297"; Store 7 1;
      Call Parse_duration "0"; Store 5 0; Store 6 0;
      Call Parse_color "red"; Store 2 255; Store 3 0; Store 4 0;
      Write [1; 80; 255; 0; 0; 0; 0; 1; 0] 9]) /\
  ~ (fst (main [] ["P"; "red"; "0"; "4294967297"] 9) = Return 1 /\
     written (snd (main [] ["P"; "red"; "0"; "4294967297"] 9)) = []).
Proof.
  split; [reflexivity|]. split; [reflexivity|]. split; [reflexivity|].
  intros [H _]. vm_compute in H. discriminate.
Qed.

(** ** Rules for triples *)

Section TripleRules.

Context {A B : Type}.

Lemma triple_ret (P : state -> Prop) (a : A) E :
  triple P (ret a) (fun _ st => P st) E.
Proof. intros st H. exact H. Qed.

Lemma triple_bind P (c : M A) (k : A -> M B) Q Q' E :
  triple P c Q E ->
  (forall a, triple (Q a) (k a) Q' E) ->
  triple P (bind c k) Q' E.
Proof.
  intros Hc Hk st HP. unfold bind. specialize (Hc st HP).
  destruct (c st) as [[a | n |] st']; [|assumption|exact I].
  exact (Hk a st' Hc).
Qed.

Lemma triple_weaken (P P' : state -> Prop) (c : M A) (Q Q' : A -> state -> Prop)
    (E E' : Z -> state -> Prop) :
  triple P' c Q' E' ->
  (forall st, P st -> P' st) ->
  (forall a st, Q' a st -> Q a st) ->
  (forall n st, E' n st -> E n st) ->
  triple P c Q E.
Proof.
  intros Hc HP HQ HE st H. specialize (Hc st (HP st H)).
  destruct (c st) as [[a | n |] st']; auto.
Qed.

End TripleRules.

Create HintDb keeps.

Section Keeps.

Variable cmd : ascii.

Lemma keeps_ret {A} (a : A) : keeps cmd (ret a).
Proof. intros st H. exact H. Qed.

Lemma keeps_bind {A B} (c : M A) (k : A -> M B) :
  keeps cmd c -> (forall a, keeps cmd (k a)) -> keeps cmd (bind c k).
Proof. intros Hc Hk. eapply triple_bind; [exact Hc | exact Hk]. Qed.

Lemma keeps_return {A} : keeps cmd (@return_ A 1).
Proof. intros st H. reflexivity. Qed.

Lemma keeps_undefined {A} : keeps cmd (@undefined A).
Proof. intros st H. exact I. Qed.

Lemma keeps_emit (e : event) : quiet e = true -> keeps cmd (emit e).
Proof.
  intros He st [Hl H0 H1 H8 Hq]. constructor; cbn [emit buf trace]; auto.
  rewrite forallb_app, Hq. simpl. rewrite He. reflexivity.
Qed.

Lemma keeps_error (msg : string) : keeps cmd (error msg).
Proof. apply keeps_emit. reflexivity. Qed.

(** A store into bytes 2..7 leaves the id, the letter and the last
    byte as they are. *)
Lemma keeps_store (i : nat) (v : Z) :
  (2 <= i <= 7)%nat -> keeps cmd (store i v).
Proof.
  intros Hi st [Hl H0 H1 H8 Hq]. constructor; cbn [store buf trace].
  - rewrite length_insert. exact Hl.
  - rewrite list_lookup_insert_ne by lia. exact H0.
  - rewrite list_lookup_insert_ne by lia. exact H1.
  - rewrite list_lookup_insert_ne by lia. exact H8.
  - rewrite forallb_app, Hq. reflexivity.
Qed.

Lemma keeps_when (b : bool) (c : M unit) :
  keeps cmd c -> keeps cmd (when b c).
Proof. intros Hc. destruct b; [exact Hc | apply keeps_ret]. Qed.

Lemma keeps_argv (fields : list string) (i : nat) :
  keeps cmd (argv fields i).
Proof.
  unfold argv. destruct (nth_error fields i);
    [apply keeps_ret | apply keeps_undefined].
Qed.

Lemma keeps_call_parse_color s : keeps cmd (call_parse_color s).
Proof.
  apply keeps_bind; [apply keeps_emit; reflexivity|].
  intros _. apply keeps_ret.
Qed.

Lemma keeps_call_atoi s : keeps cmd (call_atoi s).
Proof.
  apply keeps_bind; [apply keeps_emit; reflexivity|].
  intros _. apply keeps_ret.
Qed.

Lemma keeps_call_parse_duration s : keeps cmd (call_parse_duration s).
Proof.
  apply keeps_bind; [apply keeps_emit; reflexivity|].
  intros _. destruct (parse_duration s);
    [apply keeps_ret | apply keeps_undefined].
Qed.

#[local] Hint Resolve keeps_ret keeps_return keeps_undefined keeps_error
  keeps_argv keeps_call_parse_color keeps_call_atoi
  keeps_call_parse_duration keeps_when : keeps.

Ltac keeps_steps :=
  repeat first
    [ solve [auto with keeps]
    | apply keeps_store; lia
    | apply keeps_when
    | apply keeps_bind; [|intros ?] ].

Lemma keeps_case_n fields : keeps cmd (case_n fields).
Proof. unfold case_n. keeps_steps. Qed.

#[local] Hint Resolve keeps_case_n : keeps.

Lemma keeps_case_c fields : keeps cmd (case_c fields).
Proof. unfold case_c. keeps_steps. Qed.

#[local] Hint Resolve keeps_case_c : keeps.

Lemma keeps_case_P fields : keeps cmd (case_P fields).
Proof. unfold case_P. keeps_steps. Qed.

Lemma keeps_case_p fields : keeps cmd (case_p fields).
Proof. unfold case_p. keeps_steps. Qed.

Lemma keeps_case_D fields : keeps cmd (case_D fields).
Proof. unfold case_D. keeps_steps. Qed.

Lemma keeps_switch fields c : keeps cmd (switch fields c).
Proof.
  unfold switch.
  repeat match goal with
         | |- keeps _ (if ?b then _ else _) => destruct b
         end;
    auto using keeps_case_P, keeps_case_p, keeps_case_D with keeps.
  keeps_steps.
Qed.

Lemma keeps_check_syntax tbl c argr : keeps cmd (check_syntax tbl c argr).
Proof.
  induction tbl as [|e tbl IH]; cbn [check_syntax]; [apply keeps_ret|].
  keeps_steps.
Qed.

End Keeps.

(** ** The report that is written *)

Lemma written_app tr1 tr2 :
  written (tr1 ++ tr2) = (written tr1 ++ written tr2)%list.
Proof.
  induction tr1 as [|[] tr1 IH]; cbn [written app]; rewrite ?IH;
    try reflexivity; apply app_assoc.
Qed.

Lemma quiet_written tr : forallb quiet tr = true -> written tr = [].
Proof.
  induction tr as [|[] tr IH]; cbn [forallb quiet written andb]; auto;
    discriminate.
Qed.

Lemma quiet_no_write tr b n : forallb quiet tr = true -> ~ In (Write b n) tr.
Proof.
  intros Hq Hin. rewrite forallb_forall in Hq.
  specialize (Hq _ Hin). discriminate.
Qed.

Lemma code_byte c : to_byte (code c) = code c.
Proof.
  apply to_byte_small. unfold code.
  destruct c as [[] [] [] [] [] [] [] []]; vm_compute; intuition discriminate.
Qed.

(** The store of the command letter sets up [report_inv]. *)
Lemma store_cmd_inv (cmd : ascii) :
  report_inv cmd (snd (store 1 (code cmd) init)).
Proof.
  cbn [store snd init buf trace]. rewrite code_byte.
  constructor; reflexivity.
Qed.

(** From the check of the syntax to the end of the switch. *)
Lemma keeps_commands (cmd : ascii) (fields : list string) (argr : Z) :
  keeps cmd (check_syntax commands cmd argr ;; switch fields cmd).
Proof.
  apply keeps_bind; [apply keeps_check_syntax|].
  intros _. apply keeps_switch.
Qed.

Lemma main_fields_not_letter (a : string) (fields : list string) (wr : Z) :
  String.length a <> 1%nat ->
  fst (main_fields (a :: fields) wr init) = Return 1.
Proof.
  intros H. unfold main_fields.
  replace (strlen a =? 1) with false; [reflexivity|].
  symmetry. apply Z.eqb_neq. unfold strlen. lia.
Qed.

(** C9. In a run that ends with status 0, a report handed to [write] was
    taken whole, and it is all that reached standard output: 9 bytes, the
    first the report id 1, the second the command letter, the last 0. *)
Theorem report_shape (opts : list ascii) (args : list string) (wr : Z)
    (tr : list event) (b : list Z) (n : Z) :
  main opts args wr = (Return 0, tr) ->
  In (Write b n) tr ->
  n = MSG_SIZE /\ written tr = b /\
  List.length b = 9%nat /\
  b !! 0%nat = Some 1 /\ b !! 8%nat = Some 0 /\
  exists cmd fields,
    args = String cmd "" :: fields /\ b !! 1%nat = Some (code cmd).
Proof.
  intros Hrun Hin. unfold main in Hrun.
  destruct opts as [|o opts]; cbn [main_body] in Hrun.
  2: { exfalso. destruct (Ascii.eqb o "h"); [|destruct (Ascii.eqb o "c")];
       vm_compute in Hrun;
       first [ discriminate Hrun
             | injection Hrun as <-; simpl in Hin; intuition discriminate ]. }
  destruct args as [|a fields]; [vm_compute in Hrun; discriminate|].
  destruct (Nat.eq_dec (String.length a) 1%nat) as [Hlen|Hlen].
  2: { pose proof (main_fields_not_letter a fields wr Hlen) as E.
       destruct (main_fields (a :: fields) wr init) as [r st].
       cbn [fst] in E. congruence. }
  destruct a as [|cmd [|c2 a]]; try discriminate. clear Hlen.
  rewrite main_fields_cmd in Hrun.
  pose proof (store_cmd_inv cmd) as Hinv.
  unfold bind at 1 in Hrun.
  destruct (store 1 (code cmd) init) as [[[]| |] st1] eqn:E1;
    try discriminate E1. cbn [snd] in Hinv.
  pose proof (keeps_commands cmd fields (Z.of_nat (List.length fields)) st1 Hinv)
    as Hk.
  unfold bind at 1 in Hrun. unfold bind at 1 in Hk.
  destruct (check_syntax commands cmd (Z.of_nat (List.length fields)) st1)
    as [[[]|k|] st2].
  2: { subst k. injection Hrun as Hrun _. discriminate. }
  2: { injection Hrun as Hrun _. discriminate. }
  unfold bind at 1 in Hrun.
  destruct (switch fields cmd st2) as [[[]|k|] st3].
  2: { subst k. injection Hrun as Hrun _. discriminate. }
  2: { injection Hrun as Hrun _. discriminate. }
  destruct Hk as [Hl H0 H1 H8 Hq].
  cbv [bind get_buf emit return_] in Hrun. cbn [buf trace] in Hrun.
  injection Hrun as Hst <-.
  apply in_app_or in Hin as [Hin | [Hin | []]];
    [exfalso; exact (quiet_no_write _ _ _ Hq Hin)|].
  injection Hin as <- <-.
  assert (wr = MSG_SIZE) as ->.
  { destruct (Z.eqb_spec wr MSG_SIZE); [assumption | discriminate]. }
  repeat split; try assumption.
  - rewrite written_app, (quiet_written _ Hq). cbn [written app].
    rewrite app_nil_r. apply firstn_all2. rewrite Hl. reflexivity.
  - exists cmd, fields. split; [reflexivity | assumption].
Qed.

Lemma report_shape_witness :
  written (snd (main [] ["D"; "1"; "2000ms"] 9)) = [1; 68; 1; 0; 200; 0; 0; 0; 0].
Proof.
  refine (proj1 (proj2
    (report_shape [] ["D"; "1"; "2000ms"] 9 _ [1; 68; 1; 0; 200; 0; 0; 0; 0] 9
       eq_refl _))).
  simpl. tauto.
Defined.

(** * Further properties of the code *)

(** ** The macros *)

(** X3. With [lo <= hi], CLAMP confines a value to [lo .. hi] and leaves
    a value of that interval as it is. *)
Theorem CLAMP_bounds (v lo hi : Z) :
  lo <= hi ->
  lo <= CLAMP v lo hi <= hi /\ (lo <= v <= hi -> CLAMP v lo hi = v).
Proof. intros H. rewrite (CLAMP_spec v lo hi H). lia. Qed.

Lemma CLAMP_bounds_witness :
  0 <= CLAMP 99 0 11 <= 11 /\ (0 <= 99 <= 11 -> CLAMP 99 0 11 = 99).
Proof. apply (CLAMP_bounds 99 0 11). lia. Defined.

Lemma R_div rgb : R rgb = (rgb / 65536) mod 256.
Proof.
  unfold R. rewrite Z.shiftr_land.
  change (Z.shiftr 0xFF0000 16) with (Z.ones 8).
  rewrite Z.land_ones, Z.shiftr_div_pow2 by lia. reflexivity.
Qed.

Lemma G_div rgb : G rgb = (rgb / 256) mod 256.
Proof.
  unfold G. rewrite Z.shiftr_land.
  change (Z.shiftr 0x00FF00 8) with (Z.ones 8).
  rewrite Z.land_ones, Z.shiftr_div_pow2 by lia. reflexivity.
Qed.

Lemma B_div rgb : B rgb = rgb mod 256.
Proof.
  unfold B. rewrite Z.shiftr_0_r.
  change 0x0000FF with (Z.ones 8). rewrite Z.land_ones by lia. reflexivity.
Qed.

Lemma channel_byte rgb :
  to_byte (R rgb) = R rgb /\ to_byte (G rgb) = G rgb /\
  to_byte (B rgb) = B rgb.
Proof.
  rewrite R_div, G_div, B_div. unfold to_byte.
  rewrite !Z.mod_mod by lia. auto.
Qed.

(** X2. R, G and B give bytes for every [int], and for a 24-bit value
    the three bytes put together, R highest, give the value back. *)
Theorem channels_roundtrip (rgb : Z) :
  (0 <= R rgb <= 255 /\ 0 <= G rgb <= 255 /\ 0 <= B rgb <= 255) /\
  (0 <= rgb <= 0xFFFFFF ->
   R rgb * 65536 + G rgb * 256 + B rgb = rgb).
Proof.
  rewrite R_div, G_div, B_div. split.
  - pose proof (Z.mod_pos_bound (rgb / 65536) 256).
    pose proof (Z.mod_pos_bound (rgb / 256) 256).
    pose proof (Z.mod_pos_bound rgb 256). lia.
  - intros H. Z.to_euclidean_division_equations. lia.
Qed.

Lemma channels_roundtrip_witness :
  R 0x123456 * 65536 + G 0x123456 * 256 + B 0x123456 = 0x123456.
Proof. apply (proj2 (channels_roundtrip 0x123456)). lia. Defined.

(** ** parse_color *)

Lemma scan_digits_nonneg base s : forall acc,
  0 <= base -> 0 <= acc -> 0 <= fst (scan_digits base s acc).
Proof.
  induction s as [|c s IH]; intros acc Hb Ha; cbn [scan_digits fst]; [lia|].
  unfold digit_in. destruct (digit_val c) as [d|] eqn:Hd; cbn [fst]; [|lia].
  destruct (d <? base); cbn [fst]; [|lia].
  apply IH; [lia|]. pose proof (digit_val_nonneg c d Hd). nia.
Qed.

Lemma strtoul_nonneg s base : 0 <= base -> 0 <= fst (strtoul s base).
Proof.
  intros Hb. unfold strtoul.
  destruct (take_sign (skip_space s)) as [neg s1].
  destruct (starts_with_digit base _); [|simpl; lia].
  pose proof (scan_digits_nonneg base
    (if base =? 16 then skip_hex_prefix s1 else s1) 0 Hb (Z.le_refl 0)) as H.
  destruct (scan_digits base _ 0) as [v rest]. cbn [fst] in *.
  destruct (v >? ULONG_MAX); [unfold ULONG_MAX; lia|].
  destruct neg; [|lia]. apply Z.mod_pos_bound. lia.
Qed.

Lemma parse_color_in_range (s : string) :
  parse_color s = -1 \/ 0 <= parse_color s <= 0xFFFFFF.
Proof.
  unfold parse_color. destruct (find_color colors s) as [v|] eqn:E.
  - right. apply find_color_In in E. simpl in E.
    repeat destruct E as [E|E]; try contradiction;
      injection E as _ <-; lia.
  - pose proof (strtoul_nonneg s 16 ltac:(lia)) as H.
    destruct (strtoul s 16) as [v e]. cbn [fst] in H.
    destruct (Z.gtb_spec v 0xFFFFFF); [left; reflexivity|].
    destruct (negb (at_nul s) && at_nul e); [right; lia | left; reflexivity].
Qed.

(** X1. Whatever the token, [parse_color] gives the error value -1 or a
    value of 24 bits. *)
Theorem parse_color_range (s : string) :
  parse_color s = -1 \/ 0 <= parse_color s <= 0xFFFFFF.
Proof. exact (parse_color_in_range s). Qed.

(** ** The runs of main *)

Lemma not_in_table (cmd : ascii) :
  (forall c, In c commands -> cmd_char c <> cmd) ->
  Ascii.eqb cmd "c" = false /\ Ascii.eqb cmd "D" = false /\
  Ascii.eqb cmd "n" = false /\ Ascii.eqb cmd "p" = false /\
  Ascii.eqb cmd "P" = false.
Proof.
  intros H.
  assert (forall c, In c commands -> Ascii.eqb cmd (cmd_char c) = false) as E.
  { intros c Hc. apply Ascii.eqb_neq. intros ->. exact (H c Hc eq_refl). }
  pose proof (E (COMMAND "c" 2 USAGE_FADE "Fade to RGB color")) as Ec.
  pose proof (E (COMMAND "D" 2 USAGE_SDOWN "Serverdown tickle/off")) as ED.
  pose proof (E (COMMAND "n" 1 USAGE_SET "Set RGB color now")) as En.
  pose proof (E (COMMAND "p" 2 USAGE_PLAY "Play/Pause")) as Ep.
  pose proof (E (COMMAND "P" 3 USAGE_PATT "Set pattern entry")) as EP.
  cbn [cmd_char] in *.
  repeat split; [apply Ec | apply ED | apply En | apply Ep | apply EP];
    simpl; tauto.
Qed.

Lemma check_syntax_other (cmd : ascii) (argr : Z) (st : state) :
  (forall c, In c commands -> cmd_char c <> cmd) ->
  check_syntax commands cmd argr st = (Next tt, st).
Proof.
  intros H. destruct (not_in_table cmd H) as (Ec & ED & En & Ep & EP).
  run_main. rewrite Ec, ED, En, Ep, EP. destruct st. reflexivity.
Qed.

Lemma main_unknown_letter (cmd : ascii) (fields : list string) (wr : Z) :
  (forall c, In c commands -> cmd_char c <> cmd) ->
  main [] (String cmd "" :: fields) wr =
    (Return 1,
     [Store 1 (code cmd);
      Error (("unknown command '" ++ String cmd "'. Try 'blink -h' for help.")
             ++ nl)]).
Proof.
  intros H. unfold main, main_body. rewrite main_fields_cmd.
  unfold bind at 1. cbn [store init buf trace app].
  unfold bind at 1. rewrite (check_syntax_other cmd _ _ H).
  unfold bind at 1, switch.
  destruct (not_in_table cmd H) as (Ec & ED & En & Ep & EP).
  rewrite Ec, ED, En, Ep, EP.
  rewrite code_byte. reflexivity.
Qed.

(** X4. A letter that is no command of the table ends the run with
    status 1 and the line "unknown command" on standard error, whatever
    fields follow: the syntax check passes it, no parser is called and
    nothing is written. *)
Theorem unknown_command (cmd : ascii) (fields : list string) (wr : Z) :
  (forall c, In c commands -> cmd_char c <> cmd) ->
  main [] (String cmd "" :: fields) wr =
    (Return 1,
     [Store 1 (code cmd);
      Error (("unknown command '" ++ String cmd "'. Try 'blink -h' for help.")
             ++ nl)]).
Proof. exact (main_unknown_letter cmd fields wr). Qed.

Lemma unknown_command_witness :
  errors (snd (main [] ["x"; "red"; "5"] 9)) =
    ["unknown command 'x'. Try 'blink -h' for help." ++ nl].
Proof.
  rewrite (unknown_command "x" ["red"; "5"] 9); [reflexivity|].
  intros c Hc. simpl in Hc.
  repeat destruct Hc as [<- | Hc]; try contradiction; discriminate.
Defined.

Lemma main_no_letter (a : string) (rest : list string) (wr : Z) :
  String.length a <> 1%nat ->
  main [] (a :: rest) wr =
    (Return 1,
     [Error ("Put colors! Try 'blink -h' for more information." ++ nl)]).
Proof.
  intros H. unfold main, main_body, main_fields.
  replace (strlen a =? 1) with false; [reflexivity|].
  symmetry. apply Z.eqb_neq. unfold strlen. lia.
Qed.

(** X5. Without a command, or with a first field that is not exactly
    one character, the run ends with status 1 and the line "Put colors!"
    on standard error; the buffer is not touched. *)
Theorem no_command_letter (args : list string) (wr : Z) :
  (forall a rest, args = a :: rest -> String.length a <> 1%nat) ->
  main [] args wr =
    (Return 1,
     [Error ("Put colors! Try 'blink -h' for more information." ++ nl)]).
Proof.
  intros H. destruct args as [|a rest]; [reflexivity|].
  apply main_no_letter. exact (H a rest eq_refl).
Qed.

Lemma no_command_letter_witness :
  fst (main [] ["red"; "n"] 9) = Return 1.
Proof.
  rewrite (no_command_letter ["red"; "n"] 9); [reflexivity|].
  intros a rest [= <- _]. simpl. lia.
Defined.

(** X6. An option comes before any command: when [getopt] yields one,
    [main] returns from the option loop, the fields are not looked at,
    no parser is called, nothing is stored and [write] is not called.
    For "h" it prints the usage and the command table and for "c" the
    names of the registry, one per line in table order, both with
    status 0 and nothing on standard error. For any other character
    ("?", an option [getopt] does not know) it puts the option list on
    standard error, after what [getopt] printed there itself, prints
    nothing on standard output and returns 1. *)
Theorem options_first (o : ascii) (opts : list ascii) (args : list string)
    (wr : Z) :
  let run := main (o :: opts) args wr in
  calls (snd run) = [] /\ writes (snd run) = [] /\ stores (snd run) = [] /\
  (o = "h"%char ->
   run = (Return 0,
          Printf (USAGE ++ nl ++ USAGE_OPTIONS ++ nl ++ "Commands:" ++ nl)
          :: List.map
               (fun c => Printf (tab ++ String (cmd_char c) tab
                                 ++ cmd_desc c ++ nl))
               commands)) /\
  (o = "c"%char ->
   run = (Return 0, List.map (fun nv => Printf (fst nv ++ nl)) colors)) /\
  (o <> "h"%char -> o <> "c"%char ->
   fst run = Return 1 /\
   In (Error (USAGE_OPTIONS ++ nl)) (snd run) /\
   written (snd run) = []).
Proof.
  intros run. subst run. unfold main, main_body.
  destruct (Ascii.eqb_spec o "h") as [-> | Hh];
    [|destruct (Ascii.eqb_spec o "c") as [-> | Hc]].
  - repeat split; try reflexivity; intros; congruence.
  - repeat split; try reflexivity; intros; congruence.
  - repeat split; try reflexivity; intros; try congruence.
    simpl. left. reflexivity.
Qed.

Lemma options_first_witness :
  fst (main ["?"%char] ["n"; "red"] 9) = Return 1 /\
  In (Error (USAGE_OPTIONS ++ nl)) (snd (main ["?"%char] ["n"; "red"] 9)) /\
  written (snd (main ["?"%char] ["n"; "red"] 9)) = [].
Proof.
  apply (options_first "?" [] ["n"; "red"] 9); discriminate.
Defined.

(** ** binary32: the size of the mantissa after rounding *)

Section Rounding.

Variables prec emax : Z.
Hypothesis prec_pos : 0 < prec.

Lemma digits2_pos_bound (p : positive) : Zpos p < 2 ^ Zpos (digits2_pos p).
Proof.
  induction p as [p IH | p IH |]; cbn [digits2_pos];
    rewrite ?Pos2Z.inj_succ, ?Z.pow_succ_r by lia; lia.
Qed.

Lemma Zdigits2_bound (m : Z) :
  0 <= m -> 0 <= Zdigits2 m /\ m < 2 ^ Zdigits2 m.
Proof.
  destruct m as [|p|p]; cbn [Zdigits2]; intros H; [simpl; lia| |lia].
  split; [lia | apply digits2_pos_bound].
Qed.

Lemma shr_1_m (r : shr_record) :
  0 <= shr_m r -> shr_m (shr_1 r) = shr_m r / 2.
Proof.
  destruct r as [m b s]. cbn [shr_m]. intros H.
  rewrite <- Z.div2_div.
  destruct m as [|[p|p|]|p]; try reflexivity; lia.
Qed.

Lemma iter_shr_1_m (p : positive) : forall r,
  0 <= shr_m r -> shr_m (SpecFloat.iter_pos shr_1 p r) = shr_m r / 2 ^ Zpos p.
Proof.
  induction p as [p IH | p IH |]; intros r H; cbn [SpecFloat.iter_pos].
  - assert (0 <= shr_m (shr_1 r)) as H1
      by (rewrite shr_1_m by assumption; apply Z.div_pos; lia).
    assert (0 <= shr_m (SpecFloat.iter_pos shr_1 p (shr_1 r))) as H2
      by (rewrite IH by assumption; apply Z.div_pos; lia).
    rewrite IH, IH, shr_1_m by assumption.
    rewrite !Z.div_div by lia. f_equal.
    rewrite (Pos2Z.inj_xI p), Z.pow_add_r, Z.pow_twice_r by lia. ring.
  - assert (0 <= shr_m (SpecFloat.iter_pos shr_1 p r)) as H2
      by (rewrite IH by assumption; apply Z.div_pos; lia).
    rewrite IH, IH by assumption.
    rewrite Z.div_div by lia. f_equal.
    rewrite (Pos2Z.inj_xO p), Z.pow_twice_r. ring.
  - rewrite shr_1_m by assumption. reflexivity.
Qed.

Lemma shr_record_of_loc_m m l : shr_m (shr_record_of_loc m l) = m.
Proof. destruct l as [|[]]; reflexivity. Qed.

(** A shift to the exponent of the format leaves at most [prec] bits. *)
Lemma shr_fexp_bound (m e : Z) (l : location) :
  0 <= m ->
  0 <= shr_m (fst (shr_fexp prec emax m e l)) < 2 ^ prec.
Proof.
  intros Hm. destruct (Zdigits2_bound m Hm) as [Hd Hlt].
  unfold shr_fexp, shr.
  assert (Zdigits2 m - prec <= fexp prec emax (Zdigits2 m + e) - e) as Hn
    by (unfold fexp; lia).
  destruct (fexp prec emax (Zdigits2 m + e) - e) as [|p|p] eqn:En;
    cbn [fst].
  - rewrite shr_record_of_loc_m. split; [lia|].
    apply Z.lt_le_trans with (1 := Hlt). apply Z.pow_le_mono_r; lia.
  - rewrite iter_shr_1_m by (rewrite shr_record_of_loc_m; lia).
    rewrite shr_record_of_loc_m. split; [apply Z.div_pos; lia|].
    apply Z.div_lt_upper_bound; [lia|].
    rewrite <- Z.pow_add_r by lia.
    apply Z.lt_le_trans with (1 := Hlt). apply Z.pow_le_mono_r; lia.
  - rewrite shr_record_of_loc_m. split; [lia|].
    apply Z.lt_le_trans with (1 := Hlt). apply Z.pow_le_mono_r; lia.
Qed.

Lemma round_nearest_even_nonneg m l : 0 <= m -> 0 <= round_nearest_even m l.
Proof.
  intros H. unfold round_nearest_even.
  destruct l as [|[]]; try destruct (Z.even m); lia.
Qed.

Lemma binary_round_aux_bound (s : bool) (m e : Z) (l : location) s' m' e' :
  0 <= m ->
  binary_round_aux prec emax s m e l = S754_finite s' m' e' ->
  Zpos m' < 2 ^ prec.
Proof.
  intros Hm. unfold binary_round_aux.
  pose proof (shr_fexp_bound m e l Hm) as H1.
  destruct (shr_fexp prec emax m e l) as [mrs1 e1]. cbn [fst] in H1.
  pose proof (shr_fexp_bound
                (round_nearest_even (shr_m mrs1) (loc_of_shr_record mrs1))
                e1 loc_Exact
                (round_nearest_even_nonneg _ _ (proj1 H1))) as H2.
  destruct (shr_fexp prec emax _ e1 loc_Exact) as [mrs2 e2].
  cbn [fst] in H2.
  destruct (shr_m mrs2) as [|p|p]; try discriminate.
  destruct (e2 <=? emax - prec); [|discriminate].
  intros [= _ <- _]. lia.
Qed.

End Rounding.

Lemma mul_fits (x y : Float32.float) : mantissa_fits (Float32.mul x y).
Proof.
  unfold Float32.mul, SFmul.
  destruct x as [sx|sx| |sx mx ex], y as [sy|sy| |sy my ey]; try exact I.
  unfold mantissa_fits.
  destruct (binary_round_aux _ _ _ _ _ _) as [| | |s m e] eqn:E; try exact I.
  refine (binary_round_aux_bound Float32.prec Float32.emax _
            _ _ _ _ _ _ _ _ E); [reflexivity | lia].
Qed.

Lemma div_fits (x y : Float32.float) : mantissa_fits (Float32.div x y).
Proof.
  unfold Float32.div, SFdiv.
  destruct x as [sx|sx| |sx mx ex], y as [sy|sy| |sy my ey]; try exact I.
  unfold SFdiv_core_binary.
  set (m' := match _ with Z0 => Z.pos mx | Zpos _ => _ | Zneg _ => 0 end).
  assert (0 <= m') as Hm'.
  { subst m'. destruct (_ - _ - _); [lia | | lia].
    apply Z.shiftl_nonneg. lia. }
  pose proof (Z.div_pos m' (Zpos my) Hm' ltac:(lia)) as Hq.
  unfold Z.div in Hq. destruct (Z.div_eucl m' (Z.pos my)) as [q r].
  unfold mantissa_fits.
  destruct (binary_round_aux _ _ _ _ _ _) as [| | |s m e] eqn:E; try exact I.
  refine (binary_round_aux_bound Float32.prec Float32.emax _
            _ _ _ _ _ _ _ Hq E). reflexivity.
Qed.

(** ** parse_duration: the range of the result *)

Lemma trunc_finite_pos m e :
  Float32.trunc (S754_finite false m e) =
    Some (if 0 <=? e then Zpos m * 2 ^ e else Zpos m / 2 ^ (- e)).
Proof. reflexivity. Qed.

(** The CLAMP of the "s" and "ms" branches, converted to [int]. *)
Lemma float_clamp_range (x : Float32.float) (r : Z) :
  mantissa_fits x ->
  Float32.to_int
    (Float32.CLAMP x (Float32.of_Z (-1)) (Float32.of_Z DURATION_MAX)) = Some r ->
  -1 <= r <= 65535.
Proof.
  change (Float32.of_Z (-1)) with (S754_finite true 8388608 (-23)).
  change (Float32.of_Z DURATION_MAX) with (S754_finite false 16776960 (-8)).
  intros Hfit. unfold Float32.CLAMP, Float32.MAX, Float32.MIN.
  destruct (Float32.ltb (S754_finite false 16776960 (-8)) x) eqn:Ehi.
  { (* above the ceiling *)
    change (Float32.ltb (S754_finite false 16776960 (-8))
              (S754_finite true 8388608 (-23))) with false.
    cbv iota.
    change (Float32.to_int (S754_finite false 16776960 (-8)))
      with (Some 65535).
    intros [= <-]. lia. }
  destruct (Float32.ltb x (S754_finite true 8388608 (-23))) eqn:Elo.
  { (* below the floor *)
    change (Float32.to_int (S754_finite true 8388608 (-23)))
      with (Some (-1)).
    intros [= <-]. lia. }
  destruct x as [s|s| |s m e].
  - change (Float32.to_int (S754_zero s)) with (Some 0). intros [= <-]. lia.
  - destruct s; discriminate.
  - discriminate.
  - cbn [mantissa_fits] in Hfit.
    change (2 ^ Float32.prec) with 16777216 in Hfit.
    unfold Float32.ltb, SFltb in Ehi, Elo. destruct s.
    + (* negative, and not below -1 *)
      clear Ehi. cbn [SFcompare] in Elo.
      assert (e < -23 \/ (e = -23 /\ Zpos m <= 8388608)) as Hc.
      { destruct (Z.compare_spec e (-23)) as [-> | Hlt | Hgt];
          [right; split; [reflexivity|] | left; assumption | discriminate].
        destruct (Pos.compare_cont Eq m 8388608) eqn:Ec;
          [ apply Pos.compare_eq in Ec; subst m; clear; lia
          | assert (Zpos m < 8388608) by exact Ec; clear Ec Elo; lia
          | discriminate ]. }
      clear Elo. unfold Float32.to_int, Float32.trunc.
      destruct (Z.leb_spec 0 e) as [|_]; [lia|].
      assert (0 < 2 ^ (- e)) as Hpow by (apply Z.pow_pos_nonneg; lia).
      assert (0 <= Zpos m / 2 ^ (- e) <= 1) as Hq.
      { split; [apply Z.div_pos; lia|].
        destruct Hc as [Hc | [-> Hc]].
        - rewrite Z.div_small; [lia|]. split; [lia|].
          apply Z.lt_le_trans with (2 ^ 24); [exact Hfit|].
          apply Z.pow_le_mono_r; lia.
        - change (2 ^ (- -23)) with 8388608.
          apply Z.div_le_upper_bound; lia. }
      destruct (_ && _); [|discriminate]. intros [= <-]. lia.
    + (* positive, and not above 65535 *)
      clear Elo. cbn [SFcompare] in Ehi.
      assert (e < -8 \/ (e = -8 /\ Zpos m <= 16776960)) as Hc.
      { destruct (Z.compare_spec (-8) e) as [<- | Hlt | Hgt];
          [right; split; [reflexivity|] | discriminate | left; lia].
        destruct (Pos.compare_cont Eq 16776960 m) eqn:Ec;
          [ apply Pos.compare_eq in Ec; subst m; clear; lia
          | discriminate
          | assert (16776960 > Zpos m) by exact Ec; clear Ec Ehi; lia ]. }
      clear Ehi. unfold Float32.to_int. rewrite trunc_finite_pos.
      destruct (Z.leb_spec 0 e) as [|_]; [lia|].
      assert (0 < 2 ^ (- e)) as Hpow by (apply Z.pow_pos_nonneg; lia).
      assert (0 <= Zpos m / 2 ^ (- e) <= 65535) as Hq.
      { split; [apply Z.div_pos; lia|].
        destruct Hc as [Hc | [-> Hc]].
        - assert (Zpos m / 2 ^ (- e) < 2 ^ 15); [|lia].
          apply Z.div_lt_upper_bound; [assumption|].
          apply Z.lt_le_trans with (2 ^ 9 * 2 ^ 15); [lia|].
          apply Z.mul_le_mono_nonneg_r; [lia|].
          apply Z.pow_le_mono_r; lia.
        - change (2 ^ (- -8)) with 256.
          apply Z.div_le_upper_bound; lia. }
      destruct (_ && _); [|discriminate]. intros [= <-]. lia.
Qed.

Lemma parse_duration_range_aux (d : string) (r : Z) :
  parse_duration d = Some r -> -1 <= r <= 65535.
Proof.
  unfold parse_duration. destruct (strtof d) as [value end_].
  destruct (negb (at_nul d) && at_nul end_).
  - destruct (Float32.to_int value) as [n|]; [|discriminate].
    intros [= <-].
    rewrite CLAMP_spec by (unfold DURATION_MAX; lia).
    unfold DURATION_MAX. lia.
  - destruct (streq end_ "s").
    + apply float_clamp_range, mul_fits.
    + destruct (streq end_ "ms").
      * apply float_clamp_range, div_fits.
      * intros [= <-]. lia.
Qed.

(** X7. Whenever [parse_duration] has a result, it lies in -1 .. 65535:
    a duration that is not negative fits the two bytes it is stored in. *)
Theorem parse_duration_range (d : string) (r : Z) :
  parse_duration d = Some r -> -1 <= r <= 65535.
Proof. exact (parse_duration_range_aux d r). Qed.

Lemma parse_duration_range_witness : -1 <= 65535 <= 65535.
Proof. apply (parse_duration_range "99999s" 65535). reflexivity. Defined.

(** ** The report of each command *)

Lemma duration_bytes (dur : Z) :
  0 <= dur <= 65535 ->
  to_byte (Z.shiftr dur 8) = dur / 256 /\
  to_byte (Z.land dur 0xff) = dur mod 256 /\
  0 <= dur / 256 <= 255 /\ 0 <= dur mod 256 <= 255 /\
  dur / 256 * 256 + dur mod 256 = dur.
Proof.
  intros H. rewrite Z.shiftr_div_pow2 by lia.
  change 0xff with (Z.ones 8). rewrite Z.land_ones by lia.
  change (2 ^ 8) with 256. unfold to_byte.
  rewrite Z.mod_mod by lia.
  assert (dur / 256 < 256) by (apply Z.div_lt_upper_bound; lia).
  assert (0 <= dur / 256) by (apply Z.div_pos; lia).
  rewrite (Z.mod_small (dur / 256)) by lia.
  pose proof (Z.mod_pos_bound dur 256 ltac:(lia)).
  pose proof (Z.div_mod dur 256 ltac:(lia)).
  change (Z.ones 8) with 255. lia.
Qed.

(** X8. [blink n COLOR] sends the three channels of the color in bytes
    2-4 and leaves bytes 5-8 at 0; for a token that [parse_color]
    accepts, the three bytes put together are its value. *)
Theorem main_n_report (col : string) (wr : Z) :
  let rgb := parse_color col in
  main [] ["n"; col] wr =
    (Return (if negb (wr =? MSG_SIZE) then 1 else 0),
     [Store 1 110; Call Parse_color col;
      Store 2 (R rgb); Store 3 (G rgb); Store 4 (B rgb);
      Write [1; 110; R rgb; G rgb; B rgb; 0; 0; 0; 0] wr]) /\
  (rgb <> -1 -> R rgb * 65536 + G rgb * 256 + B rgb = rgb).
Proof.
  intros rgb. split.
  - run_main. fold rgb.
    destruct (channel_byte rgb) as (-> & -> & ->). reflexivity.
  - intros Hok. subst rgb.
    destruct (parse_color_in_range col) as [H | H]; [contradiction|].
    rewrite R_div, G_div, B_div.
    Z.to_euclidean_division_equations. lia.
Qed.

Lemma main_n_report_witness :
  R (parse_color "0a0B0c") * 65536 + G (parse_color "0a0B0c") * 256
  + B (parse_color "0a0B0c") = parse_color "0a0B0c".
Proof.
  apply (proj2 (main_n_report "0a0B0c" 9)). vm_compute. discriminate.
Defined.

(** X9. [blink c COLOR FADE] with a fade time that is not negative sends
    the channels in bytes 2-4 and the time in bytes 5-6, high byte
    first: the two bytes are the quotient and the remainder of the time
    by 256, so they give the time back. *)
Theorem main_c_report (col d : string) (dur wr : Z) :
  parse_duration d = Some dur -> 0 <= dur ->
  let rgb := parse_color col in
  main [] ["c"; col; d] wr =
    (Return (if negb (wr =? MSG_SIZE) then 1 else 0),
     [Store 1 99; Call Parse_duration d;
      Store 5 (dur / 256); Store 6 (dur mod 256);
      Call Parse_color col;
      Store 2 (R rgb); Store 3 (G rgb); Store 4 (B rgb);
      Write [1; 99; R rgb; G rgb; B rgb; dur / 256; dur mod 256; 0; 0] wr]) /\
  0 <= dur / 256 <= 255 /\ dur / 256 * 256 + dur mod 256 = dur.
Proof.
  intros Hd Hpos rgb.
  pose proof (parse_duration_range_aux d dur Hd) as Hr.
  destruct (duration_bytes dur ltac:(lia)) as (Hhi & Hlo & Hb1 & Hb2 & Hsum).
  split; [|split; assumption].
  run_main. rewrite Hd, (duration_ok _ Hpos). simpl.
  rewrite Hhi, Hlo. fold rgb.
  destruct (channel_byte rgb) as (-> & -> & ->). reflexivity.
Qed.

Lemma main_c_report_witness :
  written (snd (main [] ["c"; "white"; "3s"] 9)) =
    [1; 99; 255; 255; 255; 1; 44; 0; 0].
Proof.
  rewrite (proj1 (main_c_report "white" "3s" 300 9 eq_refl ltac:(lia))).
  reflexivity.
Defined.

(** X10. [blink D FLAG TIME] with a time that is not negative sends 1 or
    0 in byte 2 as [atoi FLAG] is nonzero or zero, and the time in bytes
    3-4, high byte first; bytes 5-8 stay 0. *)
Theorem main_D_report (a d : string) (dur wr : Z) :
  parse_duration d = Some dur -> 0 <= dur ->
  let flag := if atoi a =? 0 then 0 else 1 in
  main [] ["D"; a; d] wr =
    (Return (if negb (wr =? MSG_SIZE) then 1 else 0),
     [Store 1 68; Call Atoi a; Call Parse_duration d;
      Store 2 flag; Store 3 (dur / 256); Store 4 (dur mod 256);
      Write [1; 68; flag; dur / 256; dur mod 256; 0; 0; 0; 0] wr]) /\
  0 <= dur / 256 <= 255 /\ dur / 256 * 256 + dur mod 256 = dur.
Proof.
  intros Hd Hpos flag.
  pose proof (parse_duration_range_aux d dur Hd) as Hr.
  destruct (duration_bytes dur ltac:(lia)) as (Hhi & Hlo & Hb1 & Hb2 & Hsum).
  split; [|split; assumption].
  run_main. rewrite Hd, (duration_ok _ Hpos). simpl.
  rewrite Hhi, Hlo.
  replace (to_byte (if atoi a =? 0 then 0 else 1)) with flag
    by (subst flag; destruct (atoi a =? 0); reflexivity).
  reflexivity.
Qed.

Lemma main_D_report_witness :
  written (snd (main [] ["D"; "1"; "2000ms"] 9)) =
    [1; 68; 1; 0; 200; 0; 0; 0; 0].
Proof.
  rewrite (proj1 (main_D_report "1" "2000ms" 200 9 eq_refl ltac:(lia))).
  reflexivity.
Defined.

(** ** Every run without options *)

Lemma main_wrong_count (c : command) (fields : list string) (wr : Z) :
  In c commands -> Z.of_nat (List.length fields) <> cmd_argc c ->
  main [] (String (cmd_char c) "" :: fields) wr =
    (Return 1,
     [Store 1 (code (cmd_char c));
      Error (cmd_desc c ++ nl ++ cmd_usage c ++ nl)]).
Proof.
  intros Hin Hne. unfold main, main_body. rewrite main_fields_cmd.
  unfold bind at 1. cbn [store init buf trace].
  unfold bind at 1. rewrite (check_syntax_mismatch c _ _ Hin Hne).
  cbn [buf trace app]. rewrite code_byte. reflexivity.
Qed.

Ltac shape_leaf :=
  unfold run_shape;
  first
    [ left; repeat split; reflexivity
    | right; left;
      split; [unfold MSG_SIZE; destruct (_ =? 9); reflexivity|];
      split; [reflexivity|];
      eexists; split; [reflexivity|]; split; [reflexivity|];
      cbn [written]; apply app_nil_r
    | right; right;
      split; [reflexivity|]; split; [reflexivity|];
      split; [reflexivity|]; split; [reflexivity|];
      eexists; split; [simpl; eauto | eassumption] ].

Section RunShape.

Variables (fields : list string) (wr : Z).

Lemma shape_n : run_shape wr (main [] ("n" :: fields) wr).
Proof.
  destruct (Z.eq_dec (Z.of_nat (List.length fields)) 1) as [E|E].
  - destruct fields as [|x [|y l]]; cbn [List.length] in E; try lia.
    run_main. shape_leaf.
  - rewrite (main_wrong_count (COMMAND "n" 1 USAGE_SET "Set RGB color now"));
      [shape_leaf | simpl; tauto | exact E].
Qed.

Lemma shape_c : run_shape wr (main [] ("c" :: fields) wr).
Proof.
  destruct (Z.eq_dec (Z.of_nat (List.length fields)) 2) as [E|E].
  - destruct fields as [|x [|y [|z l]]]; cbn [List.length] in E; try lia.
    run_main. destruct (parse_duration y) as [dur|] eqn:Ed;
      [destruct (dur <? 0)|]; simpl; shape_leaf.
  - rewrite (main_wrong_count (COMMAND "c" 2 USAGE_FADE "Fade to RGB color"));
      [shape_leaf | simpl; tauto | exact E].
Qed.

Lemma shape_P : run_shape wr (main [] ("P" :: fields) wr).
Proof.
  destruct (Z.eq_dec (Z.of_nat (List.length fields)) 3) as [E|E].
  - destruct fields as [|x [|y [|z [|t l]]]]; cbn [List.length] in E; try lia.
    run_main. destruct ((atoi z <? 0) || (atoi z >? 11)); simpl;
      [shape_leaf|].
    destruct (parse_duration y) as [dur|] eqn:Ed;
      [destruct (dur <? 0)|]; simpl; shape_leaf.
  - rewrite (main_wrong_count (COMMAND "P" 3 USAGE_PATT "Set pattern entry"));
      [shape_leaf | simpl; tauto | exact E].
Qed.

Lemma shape_p : run_shape wr (main [] ("p" :: fields) wr).
Proof.
  destruct (Z.eq_dec (Z.of_nat (List.length fields)) 2) as [E|E].
  - destruct fields as [|x [|y [|z l]]]; cbn [List.length] in E; try lia.
    run_main. shape_leaf.
  - rewrite (main_wrong_count (COMMAND "p" 2 USAGE_PLAY "Play/Pause"));
      [shape_leaf | simpl; tauto | exact E].
Qed.

Lemma shape_D : run_shape wr (main [] ("D" :: fields) wr).
Proof.
  destruct (Z.eq_dec (Z.of_nat (List.length fields)) 2) as [E|E].
  - destruct fields as [|x [|y [|z l]]]; cbn [List.length] in E; try lia.
    run_main. destruct (parse_duration y) as [dur|] eqn:Ed;
      [destruct (dur <? 0)|]; simpl; shape_leaf.
  - rewrite (main_wrong_count
               (COMMAND "D" 2 USAGE_SDOWN "Serverdown tickle/off"));
      [shape_leaf | simpl; tauto | exact E].
Qed.

End RunShape.

(** X11. Every run without options ends in one of three ways. Either
    [main] uses the [error] macro exactly once (one message, which for a
    wrong count of fields is the description and the usage text of the
    command, several lines), writes nothing and returns 1; or it prints
    nothing on standard error and calls [write] exactly once with a
    buffer of 9 bytes, returning 0 when [write] took all 9 and 1,
    without any message, when it did not; or it has no defined
    behaviour because a duration is beyond what [int] holds. No field
    past the last one is ever read. *)
Theorem main_run_shape (args : list string) (wr : Z) :
  run_shape wr (main [] args wr).
Proof.
  destruct args as [|a fields]; [shape_leaf|].
  destruct a as [|cmd [|c2 a]].
  - rewrite main_no_letter by (simpl; lia). shape_leaf.
  - destruct (Ascii.eqb_spec cmd "c") as [-> | Hc]; [apply shape_c|].
    destruct (Ascii.eqb_spec cmd "D") as [-> | HD]; [apply shape_D|].
    destruct (Ascii.eqb_spec cmd "n") as [-> | Hn]; [apply shape_n|].
    destruct (Ascii.eqb_spec cmd "p") as [-> | Hp]; [apply shape_p|].
    destruct (Ascii.eqb_spec cmd "P") as [-> | HP]; [apply shape_P|].
    rewrite main_unknown_letter; [shape_leaf|].
    intros c Hin. simpl in Hin.
    repeat destruct Hin as [<- | Hin]; try contradiction;
      cbn [cmd_char]; congruence.
  - rewrite main_no_letter by (simpl; lia). shape_leaf.
Qed.

Example main_undefined_duration :
  main [] ["c"; "red"; "1e10"] 9 =
    (Undefined, [Store 1 99; Call Parse_duration "1e10"]).
Proof. reflexivity. Qed.

Example main_short_write :
  main [] ["n"; "red"] 4 =
    (Return 1,
     [Store 1 110; Call Parse_color "red";
      Store 2 255; Store 3 0; Store 4 0;
      Write [1; 110; 255; 0; 0; 0; 0; 0; 0] 4]) /\
  written (snd (main [] ["n"; "red"] 4)) = [1; 110; 255; 0].
Proof. split; reflexivity. Qed.

(** ** Whole numbers as durations *)

Lemma isdigit_digit c :
  isdigit c = true -> exists d, digit_in 10 c = Some d /\ 0 <= d < 10.
Proof.
  intros H. unfold digit_in.
  destruct (digit_val c) as [d|] eqn:Hd; [|revert H Hd; by_ascii c].
  destruct (Z.ltb_spec d 10) as [Hlt|Hge].
  - exists d. split; [reflexivity|].
    split; [eapply digit_val_nonneg; eassumption | assumption].
  - exfalso. revert H Hd Hge. unfold digit_val, isdigit.
    destruct ((48 <=? code c) && (code c <=? 57)) eqn:E; [|discriminate].
    apply andb_prop in E as [E1 E2].
    apply Z.leb_le in E1, E2. intros _ [= <-]. lia.
Qed.

Lemma isdigit_plain c :
  isdigit c = true ->
  isspace c = false /\ c <> "+"%char /\ c <> "-"%char /\
  Ascii.eqb "i" (tolower c) = false /\ Ascii.eqb "n" (tolower c) = false /\
  Ascii.eqb (tolower c) "x" = false /\ c <> "."%char.
Proof. by_ascii c. Qed.

Lemma scan_digits_dec s : forall acc,
  string_forall isdigit s = true ->
  scan_digits 10 s acc =
    (acc * 10 ^ Z.of_nat (String.length s) + dec_value s, "").
Proof.
  induction s as [|c s IH]; intros acc H.
  - simpl. f_equal. lia.
  - cbn [string_forall] in H. apply andb_prop in H as [Hc Hs].
    destruct (isdigit_digit c Hc) as (d & Hd & Hr).
    cbn [scan_digits dec_value String.length]. rewrite Hd, (IH _ Hs).
    f_equal. rewrite Nat2Z.inj_succ, Z.pow_succ_r by lia. ring.
Qed.

Lemma dec_value_nonneg s : string_forall isdigit s = true -> 0 <= dec_value s.
Proof.
  induction s as [|c s IH]; intros H; [simpl; lia|].
  cbn [string_forall] in H. apply andb_prop in H as [Hc Hs].
  destruct (isdigit_digit c Hc) as (d & Hd & Hr).
  cbn [dec_value]. rewrite Hd. specialize (IH Hs).
  assert (0 <= 10 ^ Z.of_nat (String.length s)) by (apply Z.pow_nonneg; lia).
  nia.
Qed.

Section DigitToken.

Variable ds : string.
Hypothesis Hds : string_forall isdigit ds = true.
Hypothesis Hne : ds <> "".

Lemma digits_no_special : parse_special ds = None.
Proof.
  destruct ds as [|c s]; [congruence|].
  cbn [string_forall] in Hds. apply andb_prop in Hds as [Hc _].
  destruct (isdigit_plain c Hc) as (_ & _ & _ & Hi & Hn & _).
  unfold parse_special. cbn [strip_prefix_ci]. rewrite Hi, Hn. reflexivity.
Qed.

Lemma digits_no_hex neg : parse_hex neg ds = None.
Proof.
  destruct ds as [|c [|x s]]; [congruence | |].
  - unfold parse_hex. destruct c as [[] [] [] [] [] [] [] []]; reflexivity.
  - cbn [string_forall] in Hds. apply andb_prop in Hds as [_ H].
    apply andb_prop in H as [Hx _].
    destruct (isdigit_plain x Hx) as (_ & _ & _ & _ & _ & Hxx & _).
    unfold parse_hex. rewrite Hxx.
    destruct c as [[] [] [] [] [] [] [] []]; reflexivity.
Qed.

Lemma digits_mantissa :
  parse_mantissa 10 ds = Some (dec_value ds, 0, "").
Proof.
  unfold parse_mantissa. rewrite (scan_digits_dec ds 0 Hds).
  rewrite Z.mul_0_l, Z.add_0_l.
  replace (len ds - len "" + 0 =? 0) with false; [reflexivity|].
  symmetry. apply Z.eqb_neq. unfold len.
  destruct ds; [congruence | simpl; lia].
Qed.

Lemma digits_dec neg :
  parse_dec neg ds =
    Some (Float32.of_decimal neg (dec_value ds) 0, "").
Proof. unfold parse_dec. rewrite digits_mantissa. reflexivity. Qed.

Lemma digits_skip_sign :
  take_sign (skip_space ds) = (false, ds).
Proof.
  destruct ds as [|c s]; [congruence|].
  cbn [string_forall] in Hds. apply andb_prop in Hds as [Hc _].
  destruct (isdigit_plain c Hc) as (Hs & Hp & Hm & _).
  cbn [skip_space]. rewrite Hs. revert Hp Hm. clear. by_ascii c.
Qed.

(** [strtof] on an optional sign and decimal digits. *)
Lemma strtof_digits (sg : string) :
  sg = "" \/ sg = "+" \/ sg = "-" ->
  strtof (sg ++ ds) =
    (Float32.of_decimal (String.eqb sg "-") (dec_value ds) 0, "").
Proof.
  intros Hsg. unfold strtof.
  assert (take_sign (skip_space (sg ++ ds)) = (String.eqb sg "-", ds)) as ->.
  { destruct Hsg as [-> | [-> | ->]];
      [apply digits_skip_sign | reflexivity | reflexivity]. }
  rewrite digits_no_special, digits_no_hex, digits_dec. reflexivity.
Qed.

End DigitToken.

Lemma digits2_pos_lower (p : positive) :
  2 ^ (Zpos (digits2_pos p) - 1) <= Zpos p.
Proof.
  induction p as [p IH | p IH |]; cbn [digits2_pos]; [| |simpl; lia];
    rewrite Pos2Z.inj_succ;
    replace (Z.succ (Zpos (digits2_pos p)) - 1)
      with (Z.succ (Zpos (digits2_pos p) - 1)) by lia;
    rewrite Z.pow_succ_r by lia; lia.
Qed.

Lemma iter_xO (p k : positive) :
  Zpos (Pos.iter xO p k) = Zpos p * 2 ^ Zpos k /\
  Zpos (digits2_pos (Pos.iter xO p k)) = Zpos (digits2_pos p) + Zpos k.
Proof.
  induction k as [|k IH] using Pos.peano_ind.
  - cbn [Pos.iter digits2_pos]. rewrite Pos2Z.inj_succ. split; lia.
  - rewrite Pos.iter_succ. cbn [digits2_pos].
    rewrite !Pos2Z.inj_succ, Z.pow_succ_r by lia.
    destruct IH as [IH1 IH2]. rewrite Pos2Z.inj_xO, IH1, IH2. split; lia.
Qed.

(** A mantissa of exactly 24 bits is left as it is by the rounding. *)
Lemma binary_round_aux_exact (s : bool) (m : positive) (e : Z) :
  Zpos (digits2_pos m) = 24 -> -149 <= e <= 104 ->
  binary_round_aux Float32.prec Float32.emax s (Zpos m) e loc_Exact =
    S754_finite s m e.
Proof.
  intros Hd He.
  assert (shr_fexp Float32.prec Float32.emax (Zpos m) e loc_Exact =
          (Build_shr_record (Zpos m) false false, e)) as Hshr.
  { unfold shr_fexp. cbn [Zdigits2]. rewrite Hd.
    replace (fexp Float32.prec Float32.emax (24 + e) - e) with 0
      by (unfold fexp, emin, Float32.prec, Float32.emax; lia).
    reflexivity. }
  unfold binary_round_aux. rewrite Hshr.
  cbn [shr_m loc_of_shr_record round_nearest_even]. rewrite Hshr.
  cbn [shr_m].
  replace (e <=? Float32.emax - Float32.prec) with true; [reflexivity|].
  symmetry. apply Z.leb_le. unfold Float32.emax, Float32.prec. lia.
Qed.

(** A whole number below 2^24 is a [float], and converts back. *)
Lemma of_decimal_whole (neg : bool) (n : Z) :
  0 <= n < 2 ^ 24 ->
  Float32.to_int (Float32.of_decimal neg n 0) = Some (if neg then - n else n).
Proof.
  intros Hn. destruct n as [|p|p]; [destruct neg; reflexivity | | lia].
  unfold Float32.of_decimal. change (0 <=? 0) with true. cbv iota.
  replace (Z.to_pos (Zpos p * 10 ^ 0)) with p
    by (change (10 ^ 0) with 1; rewrite Z.mul_1_r; reflexivity).
  pose proof (digits2_pos_lower p) as Hlow.
  assert (Zpos (digits2_pos p) <= 24) as Hd.
  { destruct (Z.le_gt_cases (Zpos (digits2_pos p)) 24) as [|Hgt]; [assumption|].
    exfalso. assert (2 ^ 24 <= 2 ^ (Zpos (digits2_pos p) - 1))
      by (apply Z.pow_le_mono_r; lia). lia. }
  unfold binary_round, shl_align.
  replace (fexp Float32.prec Float32.emax (Zpos (digits2_pos p) + 0) - 0)
    with (Zpos (digits2_pos p) - 24)
    by (unfold fexp, emin, Float32.prec, Float32.emax; lia).
  destruct (Zpos (digits2_pos p) - 24) as [|k|k] eqn:Ek; [| lia |].
  - rewrite binary_round_aux_exact by lia.
    unfold Float32.to_int, Float32.trunc. change (0 <=? 0) with true.
    cbv iota. change (2 ^ 0) with 1. rewrite Z.mul_1_r.
    replace ((Float32.INT_MIN <=? (if neg then - Zpos p else Zpos p)) &&
             ((if neg then - Zpos p else Zpos p) <=? Float32.INT_MAX))
      with true; [reflexivity|].
    symmetry. apply andb_true_intro. unfold Float32.INT_MIN, Float32.INT_MAX.
    split; [apply Z.leb_le | apply Z.leb_le]; destruct neg; lia.
  - destruct (iter_xO p k) as [Hv Hdig].
    replace (fexp Float32.prec Float32.emax (Zpos (digits2_pos p) + 0))
      with (Zneg k)
      by (unfold fexp, emin, Float32.prec, Float32.emax; lia).
    rewrite binary_round_aux_exact by lia.
    unfold Float32.to_int, Float32.trunc.
    change (0 <=? Zneg k) with false. cbv iota.
    change (- Zneg k) with (Zpos k). rewrite Hv.
    rewrite Z.div_mul by (apply Z.pow_nonzero; lia).
    replace ((Float32.INT_MIN <=? (if neg then - Zpos p else Zpos p)) &&
             ((if neg then - Zpos p else Zpos p) <=? Float32.INT_MAX))
      with true; [reflexivity|].
    symmetry. apply andb_true_intro. unfold Float32.INT_MIN, Float32.INT_MAX.
    split; [apply Z.leb_le | apply Z.leb_le]; destruct neg; lia.
Qed.

(** X12. A duration written as a whole number of at most 2^24 - 1, with
    or without a plus sign, is returned as it is up to 65535 and as 65535
    beyond; with a minus sign it gives -1, the value [main] rejects,
    except for "-0", which gives 0. *)
Theorem parse_duration_whole (sg ds : string) :
  sg = "" \/ sg = "+" \/ sg = "-" ->
  string_forall isdigit ds = true -> ds <> "" ->
  dec_value ds < 2 ^ 24 ->
  parse_duration (sg ++ ds) =
    Some (if String.eqb sg "-"
          then (if dec_value ds =? 0 then 0 else -1)
          else Z.min (dec_value ds) 65535).
Proof.
  intros Hsg Hds Hne Hlt. unfold parse_duration.
  rewrite (strtof_digits ds Hds Hne sg Hsg).
  replace (negb (at_nul (sg ++ ds)) && at_nul "") with true
    by (rewrite (at_nul_app_r sg ds (at_nul_nonempty ds Hne)); reflexivity).
  pose proof (dec_value_nonneg ds Hds) as Hpos.
  rewrite of_decimal_whole by lia.
  rewrite CLAMP_spec by (unfold DURATION_MAX; lia). unfold DURATION_MAX.
  f_equal. destruct (String.eqb sg "-").
  - destruct (Z.eqb_spec (dec_value ds) 0); lia.
  - lia.
Qed.

Lemma parse_duration_whole_witness :
  parse_duration "-70000" = Some (-1) /\ parse_duration "+70000" = Some 65535.
Proof.
  split.
  - apply (parse_duration_whole "-" "70000");
      [right; right; reflexivity | reflexivity | discriminate | reflexivity].
  - apply (parse_duration_whole "+" "70000");
      [right; left; reflexivity | reflexivity | discriminate | reflexivity].
Defined.

(** ** Whole seconds: the product by 100 is exact *)

Lemma digits_le_24 (p : positive) :
  Zpos p < 2 ^ 24 -> Zpos (digits2_pos p) <= 24.
Proof.
  intros H. pose proof (digits2_pos_lower p) as Hlow.
  destruct (Z.le_gt_cases (Zpos (digits2_pos p)) 24) as [|Hgt]; [assumption|].
  exfalso. assert (2 ^ 24 <= 2 ^ (Zpos (digits2_pos p) - 1))
    by (apply Z.pow_le_mono_r; lia). lia.
Qed.

(** The number of bits is fixed by the two powers of 2 around. *)
Lemma digits2_pos_unique (p : positive) (d : Z) :
  2 ^ (d - 1) <= Zpos p < 2 ^ d -> Zpos (digits2_pos p) = d.
Proof.
  intros [Hlo Hhi]. pose proof (digits2_pos_lower p) as Hl.
  pose proof (digits2_pos_bound p) as Hu.
  assert (0 < d) as Hd.
  { destruct (Z.lt_trichotomy d 0) as [Hc | [-> | Hc]]; [| |assumption].
    - rewrite Z.pow_neg_r in Hhi by assumption. lia.
    - simpl in Hhi. lia. }
  destruct (Z.lt_trichotomy (Zpos (digits2_pos p)) d) as [Hc | [Hc | Hc]];
    [exfalso | assumption | exfalso].
  - assert (2 ^ Zpos (digits2_pos p) <= 2 ^ (d - 1))
      by (apply Z.pow_le_mono_r; lia). lia.
  - assert (2 ^ d <= 2 ^ (Zpos (digits2_pos p) - 1))
      by (apply Z.pow_le_mono_r; lia). lia.
Qed.

Lemma whole_digits_24 (c q : positive) :
  Zpos (digits2_pos c) <= 24 ->
  Zpos q = Zpos c * 2 ^ (24 - Zpos (digits2_pos c)) ->
  Zpos (digits2_pos q) = 24.
Proof.
  intros Hd Hq. apply digits2_pos_unique. rewrite Hq.
  pose proof (digits2_pos_lower c) as Hl.
  pose proof (digits2_pos_bound c) as Hu.
  set (d := Zpos (digits2_pos c)) in *.
  assert (0 < 2 ^ (24 - d)) by (apply Z.pow_pos_nonneg; lia).
  replace (2 ^ (24 - 1)) with (2 ^ (d - 1) * 2 ^ (24 - d))
    by (rewrite <- Z.pow_add_r by lia; f_equal; lia).
  replace (2 ^ 24) with (2 ^ d * 2 ^ (24 - d))
    by (rewrite <- Z.pow_add_r by lia; f_equal; lia).
  split; [apply Z.mul_le_mono_nonneg_r; lia | apply Z.mul_lt_mono_pos_r; lia].
Qed.

(** Shifting out bits that are all 0 loses nothing. *)
Lemma iter_shr_exact (j : positive) : forall q,
  SpecFloat.iter_pos shr_1 j
    (Build_shr_record (Zpos (Pos.iter xO q j)) false false) =
  Build_shr_record (Zpos q) false false.
Proof.
  induction j as [j IH | j IH |]; intros q;
    cbn [SpecFloat.iter_pos Pos.iter shr_1 orb].
  - rewrite IH, IH. reflexivity.
  - rewrite IH, IH. reflexivity.
  - reflexivity.
Qed.

Lemma binary_round_aux_shift (s : bool) (M q : positive) (E j : Z) :
  Zpos (digits2_pos q) = 24 -> 0 <= j -> Zpos M = Zpos q * 2 ^ j ->
  -149 <= E + j <= 104 ->
  binary_round_aux Float32.prec Float32.emax s (Zpos M) E loc_Exact =
    S754_finite s q (E + j).
Proof.
  intros Hd Hj HM He.
  destruct j as [|j|j]; [| |lia].
  - rewrite Z.mul_1_r in HM. injection HM as ->. rewrite Z.add_0_r in *.
    apply binary_round_aux_exact; assumption.
  - destruct (iter_xO q j) as [Hv Hdig].
    assert (M = Pos.iter xO q j) as -> by (apply Pos2Z.inj; lia).
    rewrite <- (binary_round_aux_exact s q (E + Zpos j) Hd He).
    unfold binary_round_aux.
    assert (shr_fexp Float32.prec Float32.emax (Zpos (Pos.iter xO q j)) E
              loc_Exact =
            (Build_shr_record (Zpos q) false false, E + Zpos j)) as ->.
    { unfold shr_fexp. cbn [Zdigits2]. rewrite Hdig, Hd.
      replace (fexp Float32.prec Float32.emax (24 + Zpos j + E) - E)
        with (Zpos j)
        by (unfold fexp, emin, Float32.prec, Float32.emax; lia).
      cbn [shr shr_record_of_loc]. rewrite iter_shr_exact. reflexivity. }
    assert (shr_fexp Float32.prec Float32.emax (Zpos q) (E + Zpos j)
              loc_Exact =
            (Build_shr_record (Zpos q) false false, E + Zpos j)) as ->.
    { unfold shr_fexp. cbn [Zdigits2]. rewrite Hd.
      replace (fexp Float32.prec Float32.emax (24 + (E + Zpos j))
               - (E + Zpos j)) with 0
        by (unfold fexp, emin, Float32.prec, Float32.emax; lia).
      reflexivity. }
    reflexivity.
Qed.

Lemma digits_mul_lower (a b : positive) :
  Zpos (digits2_pos a) + Zpos (digits2_pos b) - 1
    <= Zpos (digits2_pos (a * b)).
Proof.
  pose proof (digits2_pos_lower a) as Ha.
  pose proof (digits2_pos_lower b) as Hb.
  pose proof (digits2_pos_bound (a * b)) as Hc.
  set (da := Zpos (digits2_pos a)) in *.
  set (db := Zpos (digits2_pos b)) in *.
  set (dc := Zpos (digits2_pos (a * b))) in *.
  assert (2 ^ (da - 1) * 2 ^ (db - 1) <= Zpos a * Zpos b) as H
    by (apply Z.mul_le_mono_nonneg; try assumption;
        apply Z.pow_nonneg; lia).
  rewrite <- Z.pow_add_r in H by (subst da db; lia).
  rewrite Pos2Z.inj_mul in Hc.
  assert (2 ^ (da - 1 + (db - 1)) < 2 ^ dc) as Hlt by lia.
  apply Z.pow_lt_mono_r_iff in Hlt; [lia | lia | subst dc; lia].
Qed.

(** The product of two whole numbers is exact when it fits 24 bits. *)
Lemma mul_whole (x y : Float32.float) (a b : positive) :
  whole_float x a -> whole_float y b -> Zpos (a * b) < 2 ^ 24 ->
  whole_float (Float32.mul x y) (a * b).
Proof.
  intros (mx & -> & Hmx & Hda) (my & -> & Hmy & Hdb) Hc.
  pose proof (digits_le_24 (a * b) Hc) as Hdc.
  pose proof (digits_mul_lower a b) as Hlow.
  set (da := Zpos (digits2_pos a)) in *.
  set (db := Zpos (digits2_pos b)) in *.
  set (dc := Zpos (digits2_pos (a * b))) in *.
  assert (0 < Zpos (a * b) * 2 ^ (24 - dc)) as Hqpos
    by (apply Z.mul_pos_pos; [lia | apply Z.pow_pos_nonneg; lia]).
  exists (Z.to_pos (Zpos (a * b) * 2 ^ (24 - dc))).
  assert (Zpos (Z.to_pos (Zpos (a * b) * 2 ^ (24 - dc))) =
          Zpos (a * b) * 2 ^ (24 - dc)) as Hq by (apply Z2Pos.id; lia).
  split; [|split; assumption].
  unfold Float32.mul, SFmul. cbn [xorb].
  rewrite (binary_round_aux_shift false (mx * my)
             (Z.to_pos (Zpos (a * b) * 2 ^ (24 - dc)))
             (da - 24 + (db - 24)) (24 + dc - da - db)).
  - f_equal. lia.
  - apply (whole_digits_24 (a * b)); assumption.
  - lia.
  - rewrite Hq, Pos2Z.inj_mul, Hmx, Hmy, Pos2Z.inj_mul.
    replace (2 ^ (24 + dc - da - db))
      with (2 ^ (24 - da) * 2 ^ (24 - db) / 2 ^ (24 - dc)).
    2: { rewrite <- Z.pow_add_r by lia.
         replace (24 - da + (24 - db)) with (24 + dc - da - db + (24 - dc))
           by lia.
         rewrite Z.pow_add_r by lia.
         apply Z.div_mul. apply Z.pow_nonzero; lia. }
    assert (2 ^ (24 - da) * 2 ^ (24 - db) =
            2 ^ (24 + dc - da - db) * 2 ^ (24 - dc)) as Hp.
    { rewrite <- !Z.pow_add_r by lia. f_equal. lia. }
    rewrite Hp, Z.div_mul by (apply Z.pow_nonzero; lia).
    transitivity (Zpos a * Zpos b * (2 ^ (24 - da) * 2 ^ (24 - db)));
      [ring | rewrite Hp; ring].
  - subst dc. lia.
Qed.

Lemma of_decimal_is_whole (p : positive) :
  Zpos p < 2 ^ 24 ->
  whole_float (Float32.of_decimal false (Zpos p) 0) p.
Proof.
  intros Hp. pose proof (digits_le_24 p Hp) as Hd.
  assert (0 < Zpos p * 2 ^ (24 - Zpos (digits2_pos p))) as Hqpos
    by (apply Z.mul_pos_pos; [lia | apply Z.pow_pos_nonneg; lia]).
  exists (Z.to_pos (Zpos p * 2 ^ (24 - Zpos (digits2_pos p)))).
  rewrite Z2Pos.id by assumption. split; [|split; [reflexivity | assumption]].
  unfold Float32.of_decimal. change (0 <=? 0) with true. cbv iota.
  replace (Z.to_pos (Zpos p * 10 ^ 0)) with p
    by (change (10 ^ 0) with 1; rewrite Z.mul_1_r; reflexivity).
  unfold binary_round, shl_align.
  replace (fexp Float32.prec Float32.emax (Zpos (digits2_pos p) + 0) - 0)
    with (Zpos (digits2_pos p) - 24)
    by (unfold fexp, emin, Float32.prec, Float32.emax; lia).
  replace (fexp Float32.prec Float32.emax (Zpos (digits2_pos p) + 0))
    with (Zpos (digits2_pos p) - 24)
    by (unfold fexp, emin, Float32.prec, Float32.emax; lia).
  destruct (Zpos (digits2_pos p) - 24) as [|k|k] eqn:Ek; [| lia |].
  - rewrite binary_round_aux_exact by lia.
    f_equal. replace (24 - Zpos (digits2_pos p)) with 0 by lia.
    rewrite Z.mul_1_r. reflexivity.
  - destruct (iter_xO p k) as [Hv Hdig].
    rewrite binary_round_aux_exact by lia.
    f_equal. apply Pos2Z.inj. rewrite Z2Pos.id by assumption.
    rewrite Hv. f_equal. f_equal. lia.
Qed.

Lemma to_int_whole (x : Float32.float) (a : positive) :
  whole_float x a -> Float32.to_int x = Some (Zpos a).
Proof.
  intros (m & -> & Hm & Hd).
  pose proof (digits2_pos_bound a) as Hu.
  assert (Zpos a < 2 ^ 24)
    by (apply Z.lt_le_trans with (1 := Hu); apply Z.pow_le_mono_r; lia).
  unfold Float32.to_int. rewrite trunc_finite_pos.
  assert ((if 0 <=? Zpos (digits2_pos a) - 24
           then Zpos m * 2 ^ (Zpos (digits2_pos a) - 24)
           else Zpos m / 2 ^ (- (Zpos (digits2_pos a) - 24))) = Zpos a) as ->.
  { rewrite Hm. destruct (Z.leb_spec 0 (Zpos (digits2_pos a) - 24)).
    - replace (Zpos (digits2_pos a)) with 24 by lia. simpl. lia.
    - replace (- (Zpos (digits2_pos a) - 24)) with (24 - Zpos (digits2_pos a))
        by lia.
      apply Z.div_mul. apply Z.pow_nonzero; lia. }
  replace ((Float32.INT_MIN <=? Zpos a) && (Zpos a <=? Float32.INT_MAX))
    with true; [reflexivity|].
  symmetry. apply andb_true_intro. unfold Float32.INT_MIN, Float32.INT_MAX.
  change (2 ^ 24) with 16777216 in *.
  split; apply Z.leb_le; lia.
Qed.

(** On whole numbers, the comparison of [float] is that of the numbers. *)
Lemma ltb_whole (x y : Float32.float) (a b : positive) :
  whole_float x a -> whole_float y b ->
  Float32.ltb x y = (Zpos a <? Zpos b).
Proof.
  intros (mx & -> & Hmx & Hda) (my & -> & Hmy & Hdb).
  pose proof (digits2_pos_lower a) as Hla.
  pose proof (digits2_pos_bound a) as Hua.
  pose proof (digits2_pos_lower b) as Hlb.
  pose proof (digits2_pos_bound b) as Hub.
  set (da := Zpos (digits2_pos a)) in *.
  set (db := Zpos (digits2_pos b)) in *.
  unfold Float32.ltb, SFltb. cbn [SFcompare].
  destruct (Z.compare_spec (da - 24) (db - 24)) as [E | E | E].
  - assert (da = db) as Hdd by lia.
    change (Pos.compare_cont Eq mx my) with (Z.compare (Zpos mx) (Zpos my)).
    rewrite Hdd in Hmx.
    assert (0 < 2 ^ (24 - db)) as Hk by (apply Z.pow_pos_nonneg; lia).
    destruct (Z.compare_spec (Zpos mx) (Zpos my)) as [Hc | Hc | Hc];
      destruct (Z.ltb_spec (Zpos a) (Zpos b)) as [Hab | Hab];
      try reflexivity; exfalso; rewrite Hmx, Hmy in Hc; nia.
  - assert (2 ^ da <= 2 ^ (db - 1)) by (apply Z.pow_le_mono_r; lia).
    symmetry. apply Z.ltb_lt. lia.
  - assert (2 ^ db <= 2 ^ (da - 1)) by (apply Z.pow_le_mono_r; lia).
    symmetry. apply Z.ltb_ge. lia.
Qed.

Lemma whole_65535 : whole_float (Float32.of_Z DURATION_MAX) 65535.
Proof. exists 16776960%positive. repeat split; vm_compute; congruence. Qed.

Lemma whole_100 : whole_float (Float32.of_Z 100) 100.
Proof. exists 13107200%positive. repeat split; vm_compute; congruence. Qed.

(** The CLAMP of the "s" branch on a whole number. *)
Lemma clamp_whole (x : Float32.float) (c : positive) :
  whole_float x c ->
  Float32.to_int
    (Float32.CLAMP x (Float32.of_Z (-1)) (Float32.of_Z DURATION_MAX)) =
  Some (Z.min (Zpos c) 65535).
Proof.
  intros Hx. unfold Float32.CLAMP, Float32.MIN.
  rewrite (ltb_whole _ _ _ _ whole_65535 Hx).
  destruct (Z.ltb_spec 65535 (Zpos c)) as [Hlt | Hge].
  - replace (Z.min (Zpos c) 65535) with 65535 by lia. reflexivity.
  - replace (Z.min (Zpos c) 65535) with (Zpos c) by lia.
    rewrite <- (to_int_whole x c Hx).
    destruct Hx as (m & -> & _). reflexivity.
Qed.

Section DigitSuffix.

Variables ds rest : string.
Hypothesis Hds : string_forall isdigit ds = true.
Hypothesis Hne : ds <> "".
Hypothesis Hrest : rest = "s" \/ rest = "ms".

Lemma scan_digits_suffix : forall s acc,
  string_forall isdigit s = true ->
  scan_digits 10 (s ++ rest) acc =
    (acc * 10 ^ Z.of_nat (String.length s) + dec_value s, rest).
Proof.
  induction s as [|c s IH]; intros acc H.
  - cbn [append String.length dec_value]. rewrite Z.mul_1_r, Z.add_0_r.
    destruct Hrest as [-> | ->]; reflexivity.
  - cbn [string_forall] in H. apply andb_prop in H as [Hc Hs].
    destruct (isdigit_digit c Hc) as (d & Hd & Hr).
    cbn [append scan_digits dec_value String.length]. rewrite Hd, (IH _ Hs).
    f_equal. rewrite Nat2Z.inj_succ, Z.pow_succ_r by lia. ring.
Qed.

Lemma length_app (s t : string) :
  String.length (s ++ t) = (String.length s + String.length t)%nat.
Proof. induction s as [|c s IH]; simpl; congruence. Qed.

Lemma suffix_mantissa :
  parse_mantissa 10 (ds ++ rest) = Some (dec_value ds, 0, rest).
Proof.
  unfold parse_mantissa. rewrite (scan_digits_suffix ds 0 Hds).
  rewrite Z.mul_0_l, Z.add_0_l.
  assert (len (ds ++ rest) - len rest = len ds) as Hlen
    by (unfold len; rewrite length_app; lia).
  assert (0 < len ds) as Hpos
    by (unfold len; destruct ds; [congruence | simpl; lia]).
  destruct Hrest as [-> | ->]; rewrite Hlen;
    (replace (len ds + 0 =? 0) with false
       by (symmetry; apply Z.eqb_neq; lia));
    reflexivity.
Qed.

Lemma suffix_dec neg :
  parse_dec neg (ds ++ rest) =
    Some (Float32.of_decimal neg (dec_value ds) 0, rest).
Proof.
  unfold parse_dec. rewrite suffix_mantissa.
  destruct Hrest as [-> | ->]; reflexivity.
Qed.

Lemma suffix_no_special : parse_special (ds ++ rest) = None.
Proof.
  destruct ds as [|c s]; [congruence|].
  cbn [string_forall] in Hds. apply andb_prop in Hds as [Hc _].
  destruct (isdigit_plain c Hc) as (_ & _ & _ & Hi & Hn & _).
  unfold parse_special. cbn [append strip_prefix_ci]. rewrite Hi, Hn.
  reflexivity.
Qed.

Lemma suffix_no_hex neg : parse_hex neg (ds ++ rest) = None.
Proof.
  destruct ds as [|c [|x s]]; [congruence | |].
  - cbn [append]. unfold parse_hex.
    destruct Hrest as [-> | ->];
      destruct c as [[] [] [] [] [] [] [] []]; reflexivity.
  - cbn [string_forall] in Hds. apply andb_prop in Hds as [_ H].
    apply andb_prop in H as [Hx _].
    destruct (isdigit_plain x Hx) as (_ & _ & _ & _ & _ & Hxx & _).
    cbn [append]. unfold parse_hex. rewrite Hxx.
    destruct c as [[] [] [] [] [] [] [] []]; reflexivity.
Qed.

Lemma suffix_skip_sign :
  take_sign (skip_space (ds ++ rest)) = (false, ds ++ rest).
Proof.
  destruct ds as [|c s]; [congruence|].
  cbn [string_forall] in Hds. apply andb_prop in Hds as [Hc _].
  destruct (isdigit_plain c Hc) as (Hs & Hp & Hm & _).
  cbn [append skip_space]. rewrite Hs. revert Hp Hm. clear. by_ascii c.
Qed.

(** [strtof] on a whole number, with or without a plus sign, followed
    by a unit: the number, and the unit left as the suffix. *)
Lemma strtof_digits_suffix (sg : string) :
  sg = "" \/ sg = "+" ->
  strtof (sg ++ ds ++ rest) =
    (Float32.of_decimal false (dec_value ds) 0, rest).
Proof.
  intros Hsg. unfold strtof.
  assert (take_sign (skip_space (sg ++ ds ++ rest)) = (false, ds ++ rest))
    as ->.
  { destruct Hsg as [-> | ->]; [apply suffix_skip_sign | reflexivity]. }
  rewrite suffix_no_special, suffix_no_hex, suffix_dec. reflexivity.
Qed.

End DigitSuffix.

(** X13. A duration written as a whole number of seconds, "N" then "s",
    with or without a plus sign, gives 100 * N hundredths exactly, the
    product being computed in [float] without rounding as long as it is
    below 2^24, and 65535 once 100 * N is beyond. *)
Theorem parse_duration_seconds (sg ds : string) :
  sg = "" \/ sg = "+" ->
  string_forall isdigit ds = true -> ds <> "" ->
  100 * dec_value ds < 2 ^ 24 ->
  parse_duration (sg ++ ds ++ "s") = Some (Z.min (100 * dec_value ds) 65535).
Proof.
  intros Hsg Hds Hne Hlt. unfold parse_duration.
  rewrite (strtof_digits_suffix ds "s" Hds Hne (or_introl eq_refl) sg Hsg).
  replace (negb (at_nul (sg ++ ds ++ "s")) && at_nul "s") with false
    by (rewrite andb_false_r; reflexivity).
  change (streq "s" "s") with true. cbv iota.
  pose proof (dec_value_nonneg ds Hds) as Hpos.
  destruct (dec_value ds) as [|p|p]; [reflexivity | | lia].
  assert (whole_float (Float32.of_decimal false (Zpos p) 0) p) as Hx
    by (apply of_decimal_is_whole; lia).
  pose proof (mul_whole _ _ p 100 Hx whole_100 ltac:(lia)) as Hm.
  rewrite (clamp_whole _ _ Hm). f_equal. lia.
Qed.

Lemma parse_duration_seconds_witness :
  parse_duration "+655s" = Some 65500 /\ parse_duration "656s" = Some 65535.
Proof.
  split.
  - apply (parse_duration_seconds "+" "655");
      [right; reflexivity | reflexivity | discriminate | reflexivity].
  - apply (parse_duration_seconds "" "656");
      [left; reflexivity | reflexivity | discriminate | reflexivity].
Defined.

(** ** Whole milliseconds: the quotient by 10, rounded, then truncated *)

Lemma Zdigits2_unique (m d : Z) :
  2 ^ (d - 1) <= m < 2 ^ d -> 0 < m -> Zdigits2 m = d.
Proof.
  intros H Hm. destruct m as [|p|p]; try lia.
  cbn [Zdigits2]. apply digits2_pos_unique, H.
Qed.

Lemma loc_of_record_of_loc m l :
  loc_of_shr_record (shr_record_of_loc m l) = l.
Proof. destruct l as [|[]]; reflexivity. Qed.

(** The second shift of [binary_round_aux]: a mantissa of 24 bits stays,
    and 2^24, which rounding up can reach, becomes 2^23. *)
Lemma round_second_stage (mant e1 : Z) :
  2 ^ 23 <= mant <= 2 ^ 24 -> -149 <= e1 <= 103 ->
  exists m' e2,
    shr_fexp Float32.prec Float32.emax mant e1 loc_Exact =
      (Build_shr_record (Zpos m') false false, e2) /\
    2 ^ 23 <= Zpos m' < 2 ^ 24 /\ e1 <= e2 <= e1 + 1 /\
    Zpos m' * 2 ^ (e2 - e1) = mant.
Proof.
  intros Hm He. destruct (Z.eq_dec mant (2 ^ 24)) as [-> | Hne].
  - exists 8388608%positive, (e1 + 1). split; [|split; [|split]].
    + unfold shr_fexp. change (Zdigits2 (2 ^ 24)) with 25.
      replace (fexp Float32.prec Float32.emax (25 + e1) - e1) with 1
        by (unfold fexp, emin, Float32.prec, Float32.emax; lia).
      reflexivity.
    + change (2 ^ 23) with 8388608. change (2 ^ 24) with 16777216. lia.
    + lia.
    + replace (e1 + 1 - e1) with 1 by lia. reflexivity.
  - assert (0 < mant) as Hpos
      by (change (2 ^ 23) with 8388608 in Hm; lia).
    exists (Z.to_pos mant), e1. rewrite Z2Pos.id by assumption.
    split; [|split; [|split]].
    + unfold shr_fexp.
      rewrite (Zdigits2_unique mant 24) by (change (24 - 1) with 23; lia).
      replace (fexp Float32.prec Float32.emax (24 + e1) - e1) with 0
        by (unfold fexp, emin, Float32.prec, Float32.emax; lia).
      reflexivity.
    + lia.
    + lia.
    + rewrite Z.sub_diag. lia.
Qed.

(** [binary_round_aux] on a mantissa of 24 or 25 bits: it drops [sh]
    bits, 0 or 1, and keeps the rest [m / 2 ^ sh] or adds one to it;
    it adds one only when the part dropped is at least a half. *)
Lemma binary_round_aux_near (m e : Z) (l : location) :
  2 ^ 23 <= m < 2 ^ 25 -> -149 <= e <= 102 ->
  exists m' e' sh mant,
    binary_round_aux Float32.prec Float32.emax false m e l =
      S754_finite false m' e' /\
    2 ^ 23 <= Zpos m' < 2 ^ 24 /\
    e + sh <= e' <= e + sh + 1 /\
    Zpos m' * 2 ^ (e' - (e + sh)) = mant /\
    ((sh = 0 /\ (mant = m \/
                (mant = m + 1 /\
                 (l = loc_Inexact Eq \/ l = loc_Inexact Gt)))) \/
     (sh = 1 /\ (mant = m / 2 \/ (mant = m / 2 + 1 /\ Z.odd m = true)))).
Proof.
  intros Hm He. change (2 ^ 23) with 8388608 in *.
  change (2 ^ 25) with 33554432 in *.
  unfold binary_round_aux.
  destruct (Z.lt_ge_cases m (2 ^ 24)) as [H24 | H24];
    change (2 ^ 24) with 16777216 in H24.
  - (* 24 bits: nothing is dropped *)
    assert (shr_fexp Float32.prec Float32.emax m e l =
            (shr_record_of_loc m l, e)) as ->.
    { unfold shr_fexp.
      rewrite (Zdigits2_unique m 24)
        by (change (2 ^ (24 - 1)) with 8388608;
            change (2 ^ 24) with 16777216; lia).
      replace (fexp Float32.prec Float32.emax (24 + e) - e) with 0
        by (unfold fexp, emin, Float32.prec, Float32.emax; lia).
      reflexivity. }
    rewrite shr_record_of_loc_m, loc_of_record_of_loc.
    set (mant := round_nearest_even m l).
    assert (mant = m \/
            (mant = m + 1 /\ (l = loc_Inexact Eq \/ l = loc_Inexact Gt)))
      as Hmant.
    { subst mant. unfold round_nearest_even.
      destruct l as [|[]]; try destruct (Z.even m); auto. }
    destruct (round_second_stage mant e) as (m' & e2 & Hs & Hb & He2 & Hv).
    { change (2 ^ 23) with 8388608. change (2 ^ 24) with 16777216.
      destruct Hmant as [-> | [-> _]]; lia. }
    { lia. }
    rewrite Hs. cbn [shr_m].
    replace (e2 <=? Float32.emax - Float32.prec) with true
      by (symmetry; apply Z.leb_le; unfold Float32.emax, Float32.prec; lia).
    exists m', e2, 0, mant. rewrite Z.add_0_r.
    split; [reflexivity|]. split; [exact Hb|]. split; [lia|].
    split; [exact Hv|]. left. split; [reflexivity | exact Hmant].
  - (* 25 bits: the last one is dropped *)
    assert (shr_fexp Float32.prec Float32.emax m e l =
            (shr_1 (shr_record_of_loc m l), e + 1)) as ->.
    { unfold shr_fexp.
      rewrite (Zdigits2_unique m 25)
        by (change (2 ^ (25 - 1)) with 16777216;
            change (2 ^ 25) with 33554432; lia).
      replace (fexp Float32.prec Float32.emax (25 + e) - e) with 1
        by (unfold fexp, emin, Float32.prec, Float32.emax; lia).
      reflexivity. }
    assert (shr_m (shr_1 (shr_record_of_loc m l)) = m / 2) as Hhalf
      by (rewrite shr_1_m; rewrite shr_record_of_loc_m; [reflexivity | lia]).
    set (mant := round_nearest_even
                   (shr_m (shr_1 (shr_record_of_loc m l)))
                   (loc_of_shr_record (shr_1 (shr_record_of_loc m l)))).
    assert (mant = m / 2 \/ (mant = m / 2 + 1 /\ Z.odd m = true)) as Hmant.
    { subst mant. rewrite Hhalf. unfold round_nearest_even.
      destruct m as [|p|p]; try lia.
      destruct l as [|[]], p as [p|p|]; cbn [shr_record_of_loc shr_1
        loc_of_shr_record orb]; try destruct (Z.even _); auto. }
    assert (8388608 <= m / 2 < 16777216) as Hq
      by (split; [apply Z.div_le_lower_bound | apply Z.div_lt_upper_bound];
          lia).
    destruct (round_second_stage mant (e + 1))
      as (m' & e2 & Hs & Hb & He2 & Hv).
    { change (2 ^ 23) with 8388608. change (2 ^ 24) with 16777216.
      destruct Hmant as [-> | [-> _]]; lia. }
    { lia. }
    rewrite Hs. cbn [shr_m].
    replace (e2 <=? Float32.emax - Float32.prec) with true
      by (symmetry; apply Z.leb_le; unfold Float32.emax, Float32.prec; lia).
    exists m', e2, 1, mant.
    split; [reflexivity|]. split; [exact Hb|]. split; [lia|].
    split; [exact Hv|]. right. split; [reflexivity | exact Hmant].
Qed.

(** Truncating the rounded quotient gives the quotient of the whole
    numbers: with at least 3 bits after the point, rounding up to the
    nearest cannot reach the next whole number from tenths. *)
Lemma quotient_trunc (p u : Z) :
  0 <= p -> 3 <= u ->
  (p * 2 ^ u / 10) / 2 ^ u = p / 10 /\
  (10 * (p * 2 ^ u / 10) + 5 <= p * 2 ^ u ->
   (p * 2 ^ u / 10 + 1) / 2 ^ u = p / 10).
Proof.
  intros Hp Hu.
  assert (8 <= 2 ^ u) as Hw
    by (change 8 with (2 ^ 3); apply Z.pow_le_mono_r; lia).
  set (w := 2 ^ u) in *.
  assert (p * w / 10 / w = p / 10) as H1.
  { rewrite Z.div_div by lia. rewrite Z.div_mul_cancel_r by lia.
    reflexivity. }
  split; [exact H1|]. intros Hhalf.
  pose proof (Z.div_mod p 10 ltac:(lia)) as Hdm.
  pose proof (Z.mod_pos_bound p 10 ltac:(lia)) as Hr.
  set (k := p / 10) in *. set (Q := p * w / 10) in *.
  pose proof (Z.div_mod (p * w) 10 ltac:(lia)) as HQ.
  pose proof (Z.mod_pos_bound (p * w) 10 ltac:(lia)) as HQr.
  fold Q in HQ.
  symmetry. apply Z.div_unique with (r := Q + 1 - k * w).
  - left. nia.
  - ring.
Qed.

Lemma whole_10 : whole_float (Float32.of_Z 10) 10.
Proof. exists 10485760%positive. repeat split; vm_compute; congruence. Qed.

(** The quotient of a whole number by 10 in [float]. *)
Lemma div_whole_10 (x : Float32.float) (p : positive) :
  whole_float x p ->
  exists m' e',
    Float32.div x (Float32.of_Z 10) = S754_finite false m' e' /\
    2 ^ 23 <= Zpos m' < 2 ^ 24 /\ e' < 0 /\
    Zpos m' / 2 ^ (- e') = Zpos p / 10.
Proof.
  intros (mx & -> & Hmx & Hdp).
  pose proof (digits2_pos_lower p) as Hlo.
  pose proof (digits2_pos_bound p) as Hhi.
  assert (Zpos (digits2_pos mx) = 24) as Hdm
    by (apply (whole_digits_24 p); assumption).
  set (dp := Zpos (digits2_pos p)) in *.
  assert (0 < dp) as Hdpos by (subst dp; lia).
  change (Float32.of_Z 10) with (S754_finite false 10485760 (-20)).
  unfold Float32.div, SFdiv, SFdiv_core_binary. cbn [xorb Zdigits2].
  rewrite Hdm. change (Zpos (digits2_pos 10485760)) with 24.
  replace (Z.min (fexp Float32.prec Float32.emax (24 + (dp - 24) - (24 + -20)))
             (dp - 24 - -20)) with (dp - 28)
    by (unfold fexp, emin, Float32.prec, Float32.emax; lia).
  replace (dp - 24 - -20 - (dp - 28)) with 24 by lia.
  rewrite Z.shiftl_mul_pow2 by lia.
  (* the integer quotient and its remainder *)
  set (N := Zpos mx * 2 ^ 24). set (P := Zpos p * 2 ^ (28 - dp)).
  assert (0 < 2 ^ (28 - dp)) as Hpw by (apply Z.pow_pos_nonneg; lia).
  assert (N = P * 1048576) as HN.
  { subst N P. rewrite Hmx.
    replace (28 - dp) with (24 - dp + 4) by lia.
    rewrite Z.pow_add_r by lia. change (2 ^ 24) with 16777216.
    change (2 ^ 4) with 16. ring. }
  assert (2 ^ 27 <= P < 2 ^ 28) as HP.
  { subst P.
    replace (2 ^ 27) with (2 ^ (dp - 1) * 2 ^ (28 - dp))
      by (rewrite <- Z.pow_add_r by lia; f_equal; lia).
    replace (2 ^ 28) with (2 ^ dp * 2 ^ (28 - dp))
      by (rewrite <- Z.pow_add_r by lia; f_equal; lia).
    split; [apply Z.mul_le_mono_nonneg_r; lia
           | apply Z.mul_lt_mono_pos_r; lia]. }
  change (2 ^ 27) with 134217728 in HP. change (2 ^ 28) with 268435456 in HP.
  pose proof (Z.div_mod N 10485760 ltac:(lia)) as Hdiv.
  pose proof (Z.mod_pos_bound N 10485760 ltac:(lia)) as Hrem.
  assert (Z.div_eucl N 10485760 = (N / 10485760, N mod 10485760)) as ->
    by (unfold Z.div, Z.modulo; destruct (Z.div_eucl N 10485760);
        reflexivity).
  set (q := N / 10485760) in *. set (r := N mod 10485760) in *.
  assert (q = P / 10) as Hq.
  { subst q. rewrite HN.
    change 10485760 with (10 * 1048576).
    apply Z.div_mul_cancel_r; lia. }
  assert (13421772 <= q < 26843546) as Hqb.
  { rewrite Hq. split; [apply Z.div_le_lower_bound
                       | apply Z.div_lt_upper_bound]; lia. }
  destruct (binary_round_aux_near q (dp - 28) (new_location 10485760 r))
    as (m' & e' & sh & mant & -> & Hb & He' & Hv & Hcase).
  { change (2 ^ 23) with 8388608. change (2 ^ 25) with 33554432. lia. }
  { lia. }
  change (2 ^ 23) with 8388608 in Hb. change (2 ^ 24) with 16777216 in Hb.
  exists m', e'. split; [reflexivity|].
  split; [change (2 ^ 23) with 8388608; change (2 ^ 24) with 16777216;
          exact Hb|].
  (* the bits kept after the point, and what the mantissa is *)
  set (u := 28 - dp - sh).
  assert (sh = 0 \/ sh = 1) as Hsh by (destruct Hcase as [[? _]|[? _]]; auto).
  assert (3 <= u) as Hu by (subst u; lia).
  assert (P = Zpos p * 2 ^ u * 2 ^ sh) as HPu.
  { subst P u. rewrite <- Z.mul_assoc, <- Z.pow_add_r by lia.
    f_equal. f_equal. lia. }
  assert (mant = Zpos p * 2 ^ u / 10 \/
          (mant = Zpos p * 2 ^ u / 10 + 1 /\
           10 * (Zpos p * 2 ^ u / 10) + 5 <= Zpos p * 2 ^ u)) as Hmant.
  { destruct Hcase as [[-> Hc] | [-> Hc]].
    - change (2 ^ 0) with 1 in HPu. rewrite Z.mul_1_r in HPu.
      rewrite <- HPu, <- Hq.
      destruct Hc as [-> | [-> Hl]]; [left; reflexivity | right].
      split; [reflexivity|].
      unfold new_location in Hl. change (Z.even 10485760) with true in Hl.
      unfold new_location_even in Hl.
      destruct (Z.eqb_spec r 0) as [_|_];
        [destruct Hl; discriminate|].
      assert (10485760 <= 2 * r) as Hhalf.
      { destruct (Z.compare_spec (2 * r) 10485760) as [Hc | Hc | Hc];
          [lia | destruct Hl; discriminate | lia]. }
      lia.
    - change (2 ^ 1) with 2 in HPu.
      assert (q / 2 = Zpos p * 2 ^ u / 10) as Hq2.
      { rewrite Hq, HPu, Z.div_div by lia.
        change (10 * 2) with (10 * 2). apply Z.div_mul_cancel_r; lia. }
      rewrite <- Hq2.
      destruct Hc as [-> | [-> Hodd]]; [left; reflexivity | right].
      split; [reflexivity|].
      pose proof (Z.div_mod q 2 ltac:(lia)) as Hq2m.
      rewrite Zmod_odd, Hodd in Hq2m.
      pose proof (Z.div_mod P 10 ltac:(lia)) as HP10.
      pose proof (Z.mod_pos_bound P 10 ltac:(lia)) as HP10r.
      rewrite <- Hq in HP10. lia. }
  assert (e' - (dp - 28 + sh) <= 1) as Hsmall by lia.
  split; [subst u; lia|].
  assert (Zpos m' / 2 ^ (- e') = mant / 2 ^ u) as ->.
  { rewrite <- Hv.
    replace (2 ^ u) with (2 ^ (- e') * 2 ^ (e' - (dp - 28 + sh)))
      by (rewrite <- Z.pow_add_r by lia; f_equal; subst u; lia).
    symmetry. apply Z.div_mul_cancel_r; apply Z.pow_nonzero; lia. }
  destruct (quotient_trunc (Zpos p) u ltac:(lia) Hu) as [H1 H2].
  destruct Hmant as [-> | [-> Hhalf]]; [exact H1 | exact (H2 Hhalf)].
Qed.

(** The CLAMP of the "ms" branch on a positive [float] with a mantissa
    of 24 bits and bits after the point. *)
Lemma clamp_normal (m : positive) (e : Z) :
  2 ^ 23 <= Zpos m < 2 ^ 24 -> e < 0 ->
  Float32.to_int
    (Float32.CLAMP (S754_finite false m e)
       (Float32.of_Z (-1)) (Float32.of_Z DURATION_MAX)) =
  Some (Z.min (Zpos m / 2 ^ (- e)) 65535).
Proof.
  change (Float32.of_Z (-1)) with (S754_finite true 8388608 (-23)).
  change (Float32.of_Z DURATION_MAX) with (S754_finite false 16776960 (-8)).
  change (2 ^ 23) with 8388608. change (2 ^ 24) with 16777216.
  intros Hm He. unfold Float32.CLAMP, Float32.MAX, Float32.MIN.
  assert (0 < 2 ^ (- e)) as Hpow by (apply Z.pow_pos_nonneg; lia).
  destruct (Float32.ltb (S754_finite false 16776960 (-8))
              (S754_finite false m e)) eqn:Ehi.
  - change (Float32.ltb (S754_finite false 16776960 (-8))
              (S754_finite true 8388608 (-23))) with false.
    cbv iota.
    change (Float32.to_int (S754_finite false 16776960 (-8)))
      with (Some 65535).
    f_equal. symmetry. apply Z.min_r.
    unfold Float32.ltb, SFltb in Ehi. cbn [SFcompare] in Ehi.
    apply Z.div_le_lower_bound; [assumption|].
    destruct (Z.compare_spec (-8) e) as [<- | Hlt | Hgt]; [| |discriminate].
    + destruct (Pos.compare_cont Eq 16776960 m) eqn:Ec; try discriminate.
      assert (16776960 < Zpos m) by exact Ec. clear Ec Ehi.
      change (2 ^ (- -8)) with 256. lia.
    + clear Ehi. assert (2 ^ (- e) <= 2 ^ 7) by (apply Z.pow_le_mono_r; lia).
      change (2 ^ 7) with 128 in *. lia.
  - change (Float32.ltb (S754_finite false m e)
              (S754_finite true 8388608 (-23))) with false.
    cbv iota. unfold Float32.to_int. rewrite trunc_finite_pos.
    destruct (Z.leb_spec 0 e) as [|_]; [lia|].
    assert (0 <= Zpos m / 2 ^ (- e) <= 65535) as Hq.
    { split; [apply Z.div_pos; lia|].
      unfold Float32.ltb, SFltb in Ehi. cbn [SFcompare] in Ehi.
      destruct (Z.compare_spec (-8) e) as [<- | Hlt | Hgt]; [|discriminate|].
      - change (2 ^ (- -8)) with 256.
        destruct (Pos.compare_cont Eq 16776960 m) eqn:Ec;
          [ apply Pos.compare_eq in Ec; subst m; clear; reflexivity
          | discriminate
          | assert (16776960 > Zpos m) by exact Ec; clear Ec Ehi;
            apply Z.div_le_upper_bound; lia ].
      - clear Ehi. assert (Zpos m / 2 ^ (- e) < 2 ^ 15); [|lia].
        apply Z.div_lt_upper_bound; [assumption|].
        apply Z.lt_le_trans with (2 ^ 9 * 2 ^ 15); [lia|].
        apply Z.mul_le_mono_nonneg_r; [lia|].
        apply Z.pow_le_mono_r; lia. }
    replace ((Float32.INT_MIN <=? Zpos m / 2 ^ (- e)) &&
             (Zpos m / 2 ^ (- e) <=? Float32.INT_MAX)) with true
      by (symmetry; apply andb_true_intro;
          unfold Float32.INT_MIN, Float32.INT_MAX;
          split; apply Z.leb_le; lia).
    f_equal. lia.
Qed.

(** X14. A duration written as a whole number of milliseconds, "N" then
    "ms", with or without a plus sign and N below 2^24, gives N / 10
    hundredths with the remainder dropped, not rounded, and 65535 once
    the quotient is beyond: the quotient is rounded in [float], but the
    rounding never reaches the next whole number. *)
Theorem parse_duration_millis (sg ds : string) :
  sg = "" \/ sg = "+" ->
  string_forall isdigit ds = true -> ds <> "" ->
  dec_value ds < 2 ^ 24 ->
  parse_duration (sg ++ ds ++ "ms") = Some (Z.min (dec_value ds / 10) 65535).
Proof.
  intros Hsg Hds Hne Hlt. unfold parse_duration.
  rewrite (strtof_digits_suffix ds "ms" Hds Hne (or_intror eq_refl) sg Hsg).
  replace (negb (at_nul (sg ++ ds ++ "ms")) && at_nul "ms") with false
    by (rewrite andb_false_r; reflexivity).
  change (streq "ms" "s") with false. change (streq "ms" "ms") with true.
  cbv iota.
  pose proof (dec_value_nonneg ds Hds) as Hpos.
  destruct (dec_value ds) as [|p|p]; [reflexivity | | lia].
  assert (whole_float (Float32.of_decimal false (Zpos p) 0) p) as Hx
    by (apply of_decimal_is_whole; lia).
  destruct (div_whole_10 _ _ Hx) as (m' & e' & -> & Hb & He & Hq).
  rewrite (clamp_normal m' e' Hb He), Hq. reflexivity.
Qed.

Lemma parse_duration_millis_witness :
  parse_duration "1999ms" = Some 199 /\
  parse_duration "+700000ms" = Some 65535.
Proof.
  split.
  - apply (parse_duration_millis "" "1999");
      [left; reflexivity | reflexivity | discriminate | reflexivity].
  - apply (parse_duration_millis "+" "700000");
      [right; reflexivity | reflexivity | discriminate | reflexivity].
Defined.

(** ** parse_color: hex digits of any count, and the minus sign *)

(** X15. On a token of hex digits alone, whatever their count, the
    result is the number they write when it is at most 0xFFFFFF and -1
    when it is more: zeros in front are accepted beyond six digits. *)
Theorem parse_color_hex_digits (ds : string) :
  string_forall isxdigit ds = true -> ds <> "" ->
  parse_color ds = if hex_value ds >? 0xFFFFFF then -1 else hex_value ds.
Proof.
  intros Hds Hne. unfold parse_color.
  rewrite (find_color_hex_token ds (isxdigit_hex_token ds Hds)).
  rewrite (strtoul_hex ds Hds Hne).
  destruct (Z.gtb_spec (hex_value ds) ULONG_MAX) as [Hbig | Hsmall].
  - change (ULONG_MAX >? 0xFFFFFF) with true. cbv iota.
    destruct (Z.gtb_spec (hex_value ds) 0xFFFFFF) as [_ | Hle];
      [reflexivity | unfold ULONG_MAX in Hbig; lia].
  - destruct (Z.gtb_spec (hex_value ds) 0xFFFFFF); [reflexivity|].
    rewrite (at_nul_nonempty ds Hne). reflexivity.
Qed.

Lemma parse_color_hex_digits_witness :
  parse_color "00000000000000000000ff" = 255.
Proof.
  apply (parse_color_hex_digits "00000000000000000000ff");
    [reflexivity | discriminate].
Defined.

(** X16. With a minus sign before 1 to 6 hex digits, [strtoul] negates
    in [unsigned long], which leaves every value but zero far above
    0xFFFFFF: the token resolves to 0 when its digits are all zeros and
    is rejected otherwise. *)
Theorem parse_color_minus (ws px ds : string) :
  string_forall isspace ws = true ->
  px = "" \/ px = "0x" \/ px = "0X" ->
  string_forall isxdigit ds = true ->
  (1 <= String.length ds <= 6)%nat ->
  parse_color (ws ++ "-" ++ px ++ ds) =
    if hex_value ds =? 0 then 0 else -1.
Proof.
  intros Hws Hpx Hds [Hl1 Hl6].
  pose proof (length_nonempty ds Hl1) as Hne.
  pose proof (hex_value_6 ds Hds Hl6) as Hb.
  unfold parse_color.
  assert (find_color colors (ws ++ "-" ++ px ++ ds) = None) as ->.
  { destruct (find_color colors _) as [v|] eqn:E; [|reflexivity].
    exfalso. apply find_color_In in E. simpl in E.
    destruct ws as [|c ws].
    - repeat destruct E as [E|E]; try contradiction; discriminate.
    - cbn [string_forall] in Hws. apply andb_prop in Hws as [Hc _].
      repeat destruct E as [E|E]; try contradiction;
        injection E as <- _; discriminate. }
  rewrite (strtoul_forms "-" px ds (or_intror (or_intror eq_refl)) Hpx Hds Hne
             ws Hws).
  destruct (Z.gtb_spec (hex_value ds) ULONG_MAX) as [Hgt|_];
    [unfold ULONG_MAX in Hgt; lia|].
  change (String.eqb "-" "-") with true. cbv iota.
  destruct (Z.eqb_spec (hex_value ds) 0) as [-> | Hnz].
  - change ((- 0) mod 2 ^ 64 >? 0xFFFFFF) with false. cbv iota.
    assert (at_nul (ws ++ "-" ++ px ++ ds) = false) as ->
      by (apply at_nul_app_r; reflexivity).
    reflexivity.
  - assert ((- hex_value ds) mod 2 ^ 64 = 2 ^ 64 - hex_value ds) as ->.
    { symmetry. apply Z.mod_unique_pos with (q := -1); lia. }
    destruct (Z.gtb_spec (2 ^ 64 - hex_value ds) 0xFFFFFF); [reflexivity|].
    lia.
Qed.

Lemma parse_color_minus_witness :
  parse_color " -0x1" = -1 /\ parse_color "-000" = 0.
Proof.
  split.
  - apply (parse_color_minus " " "0x" "1");
      [reflexivity | right; left; reflexivity | reflexivity | simpl; lia].
  - apply (parse_color_minus "" "" "000");
      [reflexivity | left; reflexivity | reflexivity | simpl; lia].
Defined.

(** ** The report of P *)

(** X17. [blink P COLOR FADE POSITION] with a position in 0..11 and a
    fade time that is not negative sends the channels in bytes 2-4, the
    time in bytes 5-6, high byte first, and the position in byte 7. *)
Theorem main_P_report (col d pos : string) (dur wr : Z) :
  0 <= atoi pos <= 11 ->
  parse_duration d = Some dur -> 0 <= dur ->
  let rgb := parse_color col in
  main [] ["P"; col; d; pos] wr =
    (Return (if negb (wr =? MSG_SIZE) then 1 else 0),
     [Store 1 80; Call Atoi pos; Store 7 (atoi pos);
      Call Parse_duration d; Store 5 (dur / 256); Store 6 (dur mod 256);
      Call Parse_color col;
      Store 2 (R rgb); Store 3 (G rgb); Store 4 (B rgb);
      Write [1; 80; R rgb; G rgb; B rgb;
             dur / 256; dur mod 256; atoi pos; 0] wr]) /\
  0 <= dur / 256 <= 255 /\ dur / 256 * 256 + dur mod 256 = dur.
Proof.
  intros Hp Hd Hpos rgb.
  pose proof (parse_duration_range_aux d dur Hd) as Hr.
  destruct (duration_bytes dur ltac:(lia)) as (Hhi & Hlo & Hb1 & Hb2 & Hsum).
  split; [|split; assumption].
  run_main. rewrite (position_ok _ Hp), Hd, (duration_ok _ Hpos). simpl.
  rewrite Hhi, Hlo, (to_byte_small (atoi pos)) by lia. fold rgb.
  destruct (channel_byte rgb) as (-> & -> & ->). reflexivity.
Qed.

Lemma main_P_report_witness :
  written (snd (main [] ["P"; "cyan"; "30s"; "11"] 9)) =
    [1; 80; 0; 255; 255; 11; 184; 11; 0].
Proof.
  rewrite (proj1 (main_P_report "cyan" "30s" "11" 3000 9
                    ltac:(vm_compute; intuition discriminate)
                    eq_refl ltac:(lia))).
  reflexivity.
Defined.

(** ** atoi: the number in front *)

Lemma scan_digits_then (rest : string) :
  starts_with_digit 10 rest = false ->
  forall s acc,
    string_forall isdigit s = true ->
    scan_digits 10 (s ++ rest) acc =
      (acc * 10 ^ Z.of_nat (String.length s) + dec_value s, rest).
Proof.
  intros Hrest. induction s as [|c s IH]; intros acc H.
  - cbn [append String.length dec_value]. rewrite Z.mul_1_r, Z.add_0_r.
    destruct rest as [|c rest']; [reflexivity|].
    cbn [starts_with_digit] in Hrest. cbn [scan_digits].
    destruct (digit_in 10 c); [discriminate | reflexivity].
  - cbn [string_forall] in H. apply andb_prop in H as [Hc Hs].
    destruct (isdigit_digit c Hc) as (d & Hd & Hr).
    cbn [append scan_digits dec_value String.length]. rewrite Hd, (IH _ Hs).
    f_equal. rewrite Nat2Z.inj_succ, Z.pow_succ_r by lia. ring.
Qed.

(** X18. [atoi] skips white space, takes a sign and reads decimal digits
    up to the first character that is none, ignoring what follows: for a
    number within [int] the result is that number, negated after a
    minus sign. *)
Theorem atoi_leading_number (ws sg ds rest : string) :
  string_forall isspace ws = true ->
  sg = "" \/ sg = "+" \/ sg = "-" ->
  string_forall isdigit ds = true -> ds <> "" ->
  starts_with_digit 10 rest = false ->
  dec_value ds <= 2 ^ 31 - 1 ->
  atoi (ws ++ sg ++ ds ++ rest) =
    if String.eqb sg "-" then - dec_value ds else dec_value ds.
Proof.
  intros Hws Hsg Hds Hne Hrest Hmax.
  pose proof (dec_value_nonneg ds Hds) as Hpos.
  unfold atoi, strtol. rewrite skip_space_app by assumption.
  assert (take_sign (skip_space (sg ++ ds ++ rest)) =
          (String.eqb sg "-", ds ++ rest)) as ->.
  { destruct Hsg as [-> | [-> | ->]]; [|reflexivity|reflexivity].
    destruct ds as [|c s]; [congruence|].
    cbn [string_forall] in Hds. apply andb_prop in Hds as [Hc _].
    destruct (isdigit_plain c Hc) as (Hs & Hp & Hm & _).
    cbn [append skip_space]. rewrite Hs. revert Hp Hm. clear. by_ascii c. }
  change (10 =? 16) with false. cbv iota.
  assert (starts_with_digit 10 (ds ++ rest) = true) as ->.
  { destruct ds as [|c s]; [congruence|].
    cbn [string_forall] in Hds. apply andb_prop in Hds as [Hc _].
    destruct (isdigit_digit c Hc) as (d & Hd & _).
    cbn [append starts_with_digit]. rewrite Hd. reflexivity. }
  rewrite (scan_digits_then rest Hrest ds 0 Hds).
  rewrite Z.mul_0_l, Z.add_0_l. cbn [fst].
  change (2 ^ 31) with 2147483648 in Hmax.
  destruct (String.eqb sg "-").
  - destruct (Z.gtb_spec (dec_value ds) (2 ^ 63)) as [Hgt|_];
      [change (2 ^ 63) with 9223372036854775808 in Hgt; lia|].
    unfold to_int. change (2 ^ 31) with 2147483648.
    change (2 ^ 32) with 4294967296.
    rewrite Z.mod_small by lia. lia.
  - destruct (Z.gtb_spec (dec_value ds) LONG_MAX) as [Hgt|_];
      [unfold LONG_MAX in Hgt;
       change (2 ^ 63) with 9223372036854775808 in Hgt; lia|].
    unfold to_int. change (2 ^ 31) with 2147483648.
    change (2 ^ 32) with 4294967296.
    rewrite Z.mod_small by lia. lia.
Qed.

Lemma atoi_leading_number_witness : atoi "  -7th" = -7.
Proof.
  apply (atoi_leading_number "  " "-" "7" "th");
    [reflexivity | right; right; reflexivity | reflexivity | discriminate
    | reflexivity | vm_compute; discriminate].
Defined.

(** ** Units that are not "s" or "ms" *)

Lemma ends_number_plain c :
  ends_number c = true ->
  digit_in 10 c = None /\ c <> "."%char /\
  Ascii.eqb (tolower c) "e" = false /\ Ascii.eqb (tolower c) "x" = false.
Proof. by_ascii c. Qed.

Lemma rest_mantissa (ds : string) (c : ascii) (rest : string) :
  string_forall isdigit ds = true -> ds <> "" -> ends_number c = true ->
  parse_mantissa 10 (ds ++ String c rest) =
    Some (dec_value ds, 0, String c rest).
Proof.
  intros Hds Hne Hc.
  destruct (ends_number_plain c Hc) as (Hd & Hdot & _).
  unfold parse_mantissa.
  rewrite (scan_digits_then (String c rest)
             ltac:(cbn [starts_with_digit]; rewrite Hd; reflexivity)
             ds 0 Hds).
  rewrite Z.mul_0_l, Z.add_0_l.
  assert (len (ds ++ String c rest) - len (String c rest) = len ds) as Hlen
    by (unfold len; rewrite length_app; lia).
  assert (0 < len ds) as Hpos
    by (unfold len; destruct ds; [congruence | simpl; lia]).
  rewrite Hlen.
  assert ((len ds + 0 =? 0) = false) as Hz by (apply Z.eqb_neq; lia).
  clear - Hdot Hz.
  destruct c as [[] [] [] [] [] [] [] []]; try (rewrite Hz; reflexivity).
  congruence.
Qed.

Section DigitRest.

Variables (ds : string) (c : ascii) (rest : string).
Hypothesis Hds : string_forall isdigit ds = true.
Hypothesis Hne : ds <> "".
Hypothesis Hc : ends_number c = true.

Lemma rest_dec neg :
  parse_dec neg (ds ++ String c rest) =
    Some (Float32.of_decimal neg (dec_value ds) 0, String c rest).
Proof.
  destruct (ends_number_plain c Hc) as (_ & _ & He & _).
  unfold parse_dec. rewrite (rest_mantissa ds c rest Hds Hne Hc).
  unfold parse_exponent. rewrite He. reflexivity.
Qed.

Lemma rest_no_special : parse_special (ds ++ String c rest) = None.
Proof.
  destruct ds as [|d s]; [congruence|].
  cbn [string_forall] in Hds. apply andb_prop in Hds as [Hd _].
  destruct (isdigit_plain d Hd) as (_ & _ & _ & Hi & Hn & _).
  unfold parse_special. cbn [append strip_prefix_ci]. rewrite Hi, Hn.
  reflexivity.
Qed.

Lemma rest_no_hex neg : parse_hex neg (ds ++ String c rest) = None.
Proof.
  destruct (ends_number_plain c Hc) as (_ & _ & _ & Hx).
  destruct ds as [|d [|x s]]; [congruence | |].
  - cbn [append]. unfold parse_hex. rewrite Hx.
    destruct d as [[] [] [] [] [] [] [] []]; reflexivity.
  - cbn [string_forall] in Hds. apply andb_prop in Hds as [_ H].
    apply andb_prop in H as [Hxd _].
    destruct (isdigit_plain x Hxd) as (_ & _ & _ & _ & _ & Hxx & _).
    cbn [append]. unfold parse_hex. rewrite Hxx.
    destruct d as [[] [] [] [] [] [] [] []]; reflexivity.
Qed.

Lemma rest_skip_sign :
  take_sign (skip_space (ds ++ String c rest)) =
    (false, ds ++ String c rest).
Proof.
  destruct ds as [|d s]; [congruence|].
  cbn [string_forall] in Hds. apply andb_prop in Hds as [Hd _].
  destruct (isdigit_plain d Hd) as (Hs & Hp & Hm & _).
  cbn [append skip_space]. rewrite Hs. revert Hp Hm. clear. by_ascii d.
Qed.

Lemma strtof_digits_rest :
  strtof (ds ++ String c rest) =
    (Float32.of_decimal false (dec_value ds) 0, String c rest).
Proof.
  unfold strtof.
  rewrite rest_skip_sign, rest_no_special, rest_no_hex, rest_dec.
  reflexivity.
Qed.

End DigitRest.

(** X19. The units are exactly "s" and "ms": a whole number followed by
    anything else that does not continue the number (another letter, a
    capital S, a space before the unit, "sec") gives -1. *)
Theorem parse_duration_bad_unit (ds : string) (c : ascii) (rest : string) :
  string_forall isdigit ds = true -> ds <> "" ->
  ends_number c = true ->
  String c rest <> "s" -> String c rest <> "ms" ->
  parse_duration (ds ++ String c rest) = Some (-1).
Proof.
  intros Hds Hne Hc Hs Hms. unfold parse_duration.
  rewrite (strtof_digits_rest ds c rest Hds Hne Hc).
  cbn [at_nul]. rewrite andb_false_r. unfold streq.
  destruct (String.eqb_spec (String c rest) "s"); [contradiction|].
  destruct (String.eqb_spec (String c rest) "ms"); [contradiction|].
  reflexivity.
Qed.

Lemma parse_duration_bad_unit_witness :
  parse_duration "5S" = Some (-1) /\ parse_duration "5 s" = Some (-1) /\
  parse_duration "5sec" = Some (-1).
Proof.
  split; [|split].
  - apply (parse_duration_bad_unit "5" "S" "");
      [reflexivity | discriminate | reflexivity | discriminate | discriminate].
  - apply (parse_duration_bad_unit "5" " " "s");
      [reflexivity | discriminate | reflexivity | discriminate | discriminate].
  - apply (parse_duration_bad_unit "5" "s" "ec");
      [reflexivity | discriminate | reflexivity | discriminate | discriminate].
Defined.

(** ** parse_color: characters after the digits *)

Lemma scan_digits_hex_then (c : ascii) (rest : string) :
  isxdigit c = false ->
  forall s acc,
    string_forall isxdigit s = true ->
    scan_digits 16 (s ++ String c rest) acc =
      (acc * 16 ^ Z.of_nat (String.length s) + hex_value s, String c rest).
Proof.
  intros Hc. induction s as [|d s IH]; intros acc H.
  - cbn [append String.length hex_value scan_digits].
    rewrite Z.mul_1_r, Z.add_0_r.
    unfold isxdigit in Hc. destruct (digit_in 16 c); [discriminate|].
    reflexivity.
  - cbn [string_forall] in H. apply andb_prop in H as [Hd Hs].
    destruct (isxdigit_digit d Hd) as (v & Hv & Hr).
    cbn [append scan_digits hex_value String.length]. rewrite Hv, (IH _ Hs).
    f_equal. rewrite Nat2Z.inj_succ, Z.pow_succ_r by lia. ring.
Qed.

(** X20. The whole token must be a number: hex digits followed by any
    character that is no hex digit (and not the "x" of a prefix), and
    whatever comes after it, give -1, unless the token is a name of the
    registry. *)
Theorem parse_color_trailing (ds : string) (c : ascii) (rest : string) :
  string_forall isxdigit ds = true -> ds <> "" ->
  isxdigit c = false ->
  (Ascii.eqb c "x" || Ascii.eqb c "X") = false ->
  find_color colors (ds ++ String c rest) = None ->
  parse_color (ds ++ String c rest) = -1.
Proof.
  intros Hds Hne Hc Hx Hreg. unfold parse_color. rewrite Hreg.
  unfold strtoul.
  assert (take_sign (skip_space (ds ++ String c rest)) =
          (false, ds ++ String c rest)) as ->.
  { destruct ds as [|d s]; [congruence|].
    cbn [string_forall] in Hds. apply andb_prop in Hds as [Hd _].
    cbn [append skip_space]. rewrite (isxdigit_not_space d Hd).
    destruct (isxdigit_not_sign d Hd) as [Hp Hm].
    revert Hp Hm. clear. by_ascii d. }
  change (16 =? 16) with true. cbv iota.
  assert (skip_hex_prefix (ds ++ String c rest) = ds ++ String c rest) as ->.
  { destruct ds as [|d [|x s]]; [congruence | |].
    - cbn [append]. unfold skip_hex_prefix. rewrite Hx. cbn [andb].
      destruct d as [[] [] [] [] [] [] [] []]; reflexivity.
    - cbn [string_forall] in Hds. apply andb_prop in Hds as [_ H].
      apply andb_prop in H as [Hxd _].
      cbn [append]. unfold skip_hex_prefix.
      rewrite (isxdigit_not_x x Hxd). cbn [andb].
      destruct d as [[] [] [] [] [] [] [] []]; reflexivity. }
  assert (starts_with_digit 16 (ds ++ String c rest) = true) as ->.
  { destruct ds as [|d s]; [congruence|].
    cbn [string_forall] in Hds. apply andb_prop in Hds as [Hd _].
    cbn [append starts_with_digit]. exact Hd. }
  rewrite (scan_digits_hex_then c rest Hc ds 0 Hds).
  cbn [at_nul]. rewrite andb_false_r.
  destruct (_ >? 0xFFFFFF); reflexivity.
Qed.

Lemma parse_color_trailing_witness :
  parse_color "ff00ff " = -1 /\ parse_color "12,34,56" = -1.
Proof.
  split.
  - apply (parse_color_trailing "ff00ff" " " ""); try reflexivity.
    discriminate.
  - apply (parse_color_trailing "12" "," "34,56"); try reflexivity.
    discriminate.
Defined.

(** The color is stored unchecked by [c] and [P] as well. *)
Example main_c_P_unchecked_color :
  written (snd (main [] ["c"; "zzz"; "1s"] 9)) =
    [1; 99; 255; 255; 255; 0; 100; 0; 0] /\
  written (snd (main [] ["P"; "zzz"; "1s"; "3"] 9)) =
    [1; 80; 255; 255; 255; 0; 100; 3; 0].
Proof. split; reflexivity. Qed.
